(** * StudyOS backend (server.js): chunking, ingestion, search and
      completion logging

    A shallow embedding of [src/server.js].  The helpers [getChunkConfig] and
    [chunkText] are pure and are embedded as functions; the three POST
    handlers talk to two outside services (the embedding provider and the
    vector store), which are embedded as oracles, every call to them being
    recorded in a trace. *)

From Stdlib Require Import String Ascii List ZArith QArith Bool Lia.
Import ListNotations.

#[local] Open Scope Z_scope.
#[local] Set Warnings "-register-all".

(** ** JavaScript values *)

(** A JavaScript string is a sequence of UTF-16 code units. *)
Definition JsString := list N.

(** A string literal of the source (ASCII only). *)
Definition str (s : string) : JsString :=
  map N_of_ascii (list_ascii_of_string s).

Fixpoint jsstring_eqb (a b : JsString) : bool :=
  match a, b with
  | [], [] => true
  | x :: a', y :: b' => N.eqb x y && jsstring_eqb a' b'
  | _, _ => false
  end.

(** Values that a parsed JSON request body, or a reply of a service, can
    hold.  [JUndefined] is what reading an absent property gives.  Numbers
    are kept as rationals: the handlers only test them for truthiness and
    hand them on, they never compute with the numbers of a request.  An
    object is the list of its own properties in insertion order; a lookup
    takes the first entry for a key. *)
Inductive JsValue : Type :=
| JUndefined
| JNull
| JBool (b : bool)
| JNum (q : Q)
| JStr (s : JsString)
| JArr (items : list JsValue)
| JObj (props : list (JsString * JsValue)).

Definition num (z : Z) : JsValue := JNum (inject_Z z).
Definition lit (s : string) : JsValue := JStr (str s).

(** ToBoolean. *)
Definition truthy (v : JsValue) : bool :=
  match v with
  | JUndefined | JNull => false
  | JBool b => b
  | JNum q => negb (Z.eqb (Qnum q) 0)
  | JStr s => match s with [] => false | _ => true end
  | JArr _ | JObj _ => true
  end.

(** [a || b] *)
Definition js_or (a b : JsValue) : JsValue := if truthy a then a else b.

(** [v === 'literal'] *)
Definition strict_eq_str (v : JsValue) (s : JsString) : bool :=
  match v with
  | JStr t => jsstring_eqb t s
  | _ => false
  end.

(** A default of a parameter or of a destructuring pattern: it replaces
    [undefined] only. *)
Definition with_default (v d : JsValue) : JsValue :=
  match v with
  | JUndefined => d
  | _ => v
  end.

Fixpoint lookup (k : JsString) (props : list (JsString * JsValue)) : JsValue :=
  match props with
  | [] => JUndefined
  | (k', v) :: rest => if jsstring_eqb k' k then v else lookup k rest
  end.

(** What a computation of the source can do: return, throw, or run for
    ever (only the [while] loop of the chunker can, and only under a profile
    that the source does not have). *)
Inductive Outcome (A : Type) : Type :=
| Returns (a : A)
| Throws
| Diverges.
Arguments Returns {A} a.
Arguments Throws {A}.
Arguments Diverges {A}.

Class Monad (M : Type -> Type) : Type := {
  ret : forall {A}, A -> M A;
  bind : forall {A B}, M A -> (A -> M B) -> M B
}.

Notation "x <- m ;; k" := (bind m (fun x => k))
  (at level 61, m at next level, right associativity).

#[export] Instance Outcome_Monad : Monad Outcome := {
  ret := fun A a => Returns a;
  bind := fun A B m k =>
    match m with
    | Returns a => k a
    | Throws => Throws
    | Diverges => Diverges
    end
}.

(** [v.name] for a property name other than an array index.  Reading a
    property of [undefined] or [null] throws a TypeError. *)
Definition get (v : JsValue) (name : string) : Outcome JsValue :=
  match v with
  | JUndefined | JNull => Throws
  | JObj props => Returns (lookup (str name) props)
  | JArr items =>
      if String.eqb name "length" then Returns (num (Z.of_nat (length items)))
      else Returns JUndefined
  | JStr s =>
      if String.eqb name "length" then Returns (num (Z.of_nat (length s)))
      else Returns JUndefined
  | JBool _ | JNum _ => Returns JUndefined
  end.

(** [v?.name] *)
Definition get_opt (v : JsValue) (name : string) : JsValue :=
  match get v name with
  | Returns x => x
  | _ => JUndefined
  end.

(** [v[0]] *)
Definition get_first (v : JsValue) : Outcome JsValue :=
  match v with
  | JUndefined | JNull => Throws
  | JArr items => Returns (hd JUndefined items)
  | JStr s => Returns (match s with [] => JUndefined | c :: _ => JStr [c] end)
  | JObj props => Returns (lookup (str "0") props)
  | JBool _ | JNum _ => Returns JUndefined
  end.

(** ** Words *)

(** The code units that [\s] matches: WhiteSpace and LineTerminator of
    ECMAScript. *)
Definition is_space (c : N) : bool :=
  (N.leb 9 c && N.leb c 13)
  || N.eqb c 32 || N.eqb c 160 || N.eqb c 5760
  || (N.leb 8192 c && N.leb c 8202)
  || N.eqb c 8232 || N.eqb c 8233 || N.eqb c 8239 || N.eqb c 8287
  || N.eqb c 12288 || N.eqb c 65279.

(** [text.split(/\s+/)].  The string is read from left to right; [cur] holds
    the characters of the piece being read, last one first, and [in_sep]
    says that the previous character belonged to a separator.  A separator
    is a maximal run of [\s] characters; the piece before it is emitted when
    the run starts, and the last piece when the string ends, so a string
    that starts or ends with a separator gets an empty first or last piece,
    and the empty string gives one empty piece. *)
Fixpoint split_go (in_sep : bool) (cur : JsString) (s : JsString)
  : list JsString :=
  match s with
  | [] => [rev cur]
  | c :: rest =>
      if is_space c then
        if in_sep then split_go true [] rest
        else rev cur :: split_go true [] rest
      else split_go false (c :: cur) rest
  end.

Definition split_spaces (text : JsString) : list JsString :=
  split_go false [] text.

Definition nonempty (s : JsString) : bool :=
  match s with [] => false | _ => true end.

(** [text.split(/\s+/).filter(Boolean)] *)
Definition words_of (text : JsString) : list JsString :=
  filter nonempty (split_spaces text).

(** [ws.join(' ')] *)
Fixpoint join (ws : list JsString) : JsString :=
  match ws with
  | [] => []
  | [w] => w
  | w :: rest => w ++ 32%N :: join rest
  end.

(** The normalized text as the specification words it: the words are the
    maximal runs of characters that are not white space, so that any run of
    white space separates two words and no word is empty, and they are
    joined again with single spaces. *)
Fixpoint spec_words (cur : JsString) (s : JsString) : list JsString :=
  match s with
  | [] => if nonempty cur then [rev cur] else []
  | c :: rest =>
      if is_space c then
        if nonempty cur then rev cur :: spec_words [] rest
        else spec_words [] rest
      else spec_words (c :: cur) rest
  end.

Definition normalize (text : JsString) : JsString :=
  join (spec_words [] text).

(** A word: at least one character, none of them matched by [\s]. *)
Definition spaceless (w : JsString) : Prop :=
  Forall (fun c => is_space c = false) w.

Definition is_word (w : JsString) : Prop := w <> [] /\ spaceless w.

(** [l.slice(start, end)], with the negative indices of JavaScript counted
    from the end of the array. *)
Definition slice {A} (l : list A) (start end_ : Z) : list A :=
  let len := Z.of_nat (length l) in
  let k := if start <? 0 then Z.max (len + start) 0 else Z.min start len in
  let final := if end_ <? 0 then Z.max (len + end_) 0 else Z.min end_ len in
  firstn (Z.to_nat (final - k)) (skipn (Z.to_nat k) l).

(** ** Chunk profiles *)

Record ChunkConfig := { sizeWords : Z; overlapWords : Z }.

Definition getChunkConfig (profile : JsValue) : ChunkConfig :=
  let profile := with_default profile (lit "default") in
  if strict_eq_str profile (str "short_form") then
    {| sizeWords := 400; overlapWords := 60 |}
  else if strict_eq_str profile (str "long_book") then
    {| sizeWords := 1400; overlapWords := 180 |}
  else
    {| sizeWords := 900; overlapWords := 120 |}.

(** ** The chunker *)

Module Chunker.

(** The variables of the [while] loop. *)
Record LoopState := { start : Z; chunks : list JsString }.

Section Loop.
Variable cfg : ChunkConfig.
Variable words : list JsString.

(** [words.length] *)
Definition words_length : Z := Z.of_nat (length words).

(** The window of one pass: [end] as the loop computes it from [start]. *)
Definition window_end (start : Z) : Z :=
  Z.min (start + sizeWords cfg) words_length.

(** One evaluation of the loop condition and, when it holds, of the loop
    body: either the loop goes on in a new state, or it is left (by the
    condition or by [break]) with the final [chunks]. *)
Definition loop_pass (st : LoopState) : LoopState + list JsString :=
  if start st <? words_length then
    let end_ := window_end (start st) in
    let chunkWords := slice words (start st) end_ in
    let chunks' := chunks st ++ [join chunkWords] in
    if end_ =? words_length then inr chunks'
    else inl {| start := end_ - overlapWords cfg; chunks := chunks' |}
  else inr (chunks st).

(** The loop, run for at most [fuel] passes. *)
Fixpoint loop (fuel : nat) (st : LoopState) : option (list JsString) :=
  match fuel with
  | O => None
  | S fuel' =>
      match loop_pass st with
      | inr result => Some result
      | inl st' => loop fuel' st'
      end
  end.

(** The same loop, recording the window [(start, end)] of every pass
    instead of the text of the chunk. *)
Fixpoint loop_windows (fuel : nat) (start : Z) : option (list (Z * Z)) :=
  match fuel with
  | O => None
  | S fuel' =>
      if start <? words_length then
        let end_ := window_end start in
        if end_ =? words_length then Some [(start, end_)]
        else option_map (cons (start, end_))
               (loop_windows fuel' (end_ - overlapWords cfg))
      else Some []
  end.

(** The text of the chunk of a window. *)
Definition chunk_of (w : Z * Z) : JsString :=
  join (slice words (fst w) (snd w)).

(** The body of [chunkText] once the text is split into [words]. *)
Definition chunk_words (fuel : nat) : option (list JsString) :=
  if (length words =? 0)%nat then Some []
  else if words_length <=? sizeWords cfg then Some [join words]
  else loop fuel {| start := 0; chunks := [] |}.

End Loop.

End Chunker.

(** The windows as the specification words them: the first one starts at
    [start]; the end of a window is [min (start + sizeWords) total]; the
    next window starts at the end of the previous one minus [overlapWords];
    the window whose end is [total] is the last one. *)
Inductive sliding_windows (sizeWords overlapWords total : Z)
  : Z -> list (Z * Z) -> Prop :=
| sliding_last (start : Z) :
    Z.min (start + sizeWords) total = total ->
    sliding_windows sizeWords overlapWords total start [(start, total)]
| sliding_next (start end_ : Z) (rest : list (Z * Z)) :
    end_ = Z.min (start + sizeWords) total ->
    end_ <> total ->
    sliding_windows sizeWords overlapWords total (end_ - overlapWords) rest ->
    sliding_windows sizeWords overlapWords total start
      ((start, end_) :: rest).

(** [chunkText(text, profile)].  Calling [split] on a value that is not a
    string throws.  The loop is given [words.length + 1] passes, which is
    enough whenever [overlapWords < sizeWords], as in the three profiles of
    the source. *)
Definition chunkText (text profile : JsValue) : Outcome (list JsString) :=
  let profile := with_default profile (lit "default") in
  let cfg := getChunkConfig profile in
  match text with
  | JStr s =>
      let words := words_of s in
      match Chunker.chunk_words cfg words (S (length words)) with
      | Some chunks => Returns chunks
      | None => Diverges
      end
  | _ => Throws
  end.

(** ** The outside services and the handlers *)

(** A call that leaves the process. *)
Inductive Call : Type :=
| EmbeddingsCreate (args : JsValue)
    (* openai.embeddings.create(args) *)
| InsertSelectId (table : JsString) (rows : JsValue)
    (* supabase.from(table).insert(rows).select('id') *)
| Rpc (fn : JsString) (args : JsValue).
    (* supabase.rpc(fn, args) *)

(** The services: what each call answers; [None] is a rejected promise. *)
Record Services := {
  embeddings_create : JsValue -> option JsValue;
  insert_select_id : JsString -> JsValue -> option JsValue;
  rpc : JsString -> JsValue -> option JsValue
}.

(** A computation of a handler: the calls it made, in order, and how it
    ended. *)
Definition Eff (A : Type) : Type := (list Call * Outcome A)%type.

#[export] Instance Eff_Monad : Monad Eff := {
  ret := fun A a => ([], Returns a);
  bind := fun A B m k =>
    match m with
    | (t, Returns a) => let '(t', r) := k a in (t ++ t', r)
    | (t, Throws) => (t, Throws)
    | (t, Diverges) => (t, Diverges)
    end
}.

Definition lift {A} (m : Outcome A) : Eff A := ([], m).

Definition await (c : Call) (answer : option JsValue) : Eff JsValue :=
  ([c], match answer with Some v => Returns v | None => Throws end).

(** [try { m } catch (err) { h }] *)
Definition try_catch {A} (m : Eff A) (h : Eff A) : Eff A :=
  match m with
  | (t, Throws) => let '(t', r) := h in (t ++ t', r)
  | _ => m
  end.

(** [arr.map(f)] for a callback that can throw. *)
Fixpoint map_outcome {A B} (f : A -> Outcome B) (l : list A)
  : Outcome (list B) :=
  match l with
  | [] => Returns []
  | x :: rest =>
      y <- f x ;;
      ys <- map_outcome f rest ;;
      ret (y :: ys)
  end.

(** [v.map(x => x.name)]: only an array has [map]. *)
Definition map_get (v : JsValue) (name : string) : Outcome (list JsValue) :=
  match v with
  | JArr items => map_outcome (fun x => get x name) items
  | _ => Throws
  end.

(** [arr.map((x, i) => f x i)], [i] counting from [from]. *)
Fixpoint mapi_from {A B} (from : Z) (f : A -> Z -> B) (l : list A) : list B :=
  match l with
  | [] => []
  | x :: rest => f x from :: mapi_from (from + 1) f rest
  end.

Definition prop (name : string) (v : JsValue) : JsString * JsValue :=
  (str name, v).

(** What the handler sends back: [res.status(s).json(b)]; [res.json(b)]
    leaves the status at 200. *)
Record Response := { status : Z; payload : JsValue }.

Definition error_response (s : Z) (message : string) : Response :=
  {| status := s; payload := JObj [prop "error" (lit message)] |}.

Section Handlers.
Variable env : Services.

Definition embedText (input : JsValue) : Eff (list JsValue) :=
  let args :=
    JObj [prop "model" (lit "text-embedding-3-small"); prop "input" input] in
  response <- await (EmbeddingsCreate args) (embeddings_create env args) ;;
  data <- lift (get response "data") ;;
  lift (map_get data "embedding").

(** The row of the chunk [chunk], the [i]-th one of its text; reading an
    array past its end gives [undefined]. *)
Definition ingest_row
  (course type subtopic assignment_type source_name : JsValue)
  (embeddings : list JsValue) (chunk : JsString) (i : Z) : JsValue :=
  JObj [prop "course" course;
        prop "type" type;
        prop "subtopic" subtopic;
        prop "assignment_type" assignment_type;
        prop "source_name" source_name;
        prop "chunk_index" (num i);
        prop "content" (JStr chunk);
        prop "embedding" (nth (Z.to_nat i) embeddings JUndefined)].

(** POST /ingest_content *)
Definition ingest_content (body : JsValue) : Eff Response :=
  try_catch
    (course <- lift (get body "course") ;;
     type <- lift (get body "type") ;;
     subtopic <- lift (get body "subtopic") ;;
     assignment_type <- lift (get body "assignment_type") ;;
     chunk_profile <- lift (get body "chunk_profile") ;;
     let chunk_profile := with_default chunk_profile (lit "default") in
     raw_text <- lift (get body "raw_text") ;;
     source_name <- lift (get body "source_name") ;;
     if negb (truthy raw_text) || negb (truthy course) || negb (truthy type)
     then
       ret (error_response 400
              "Missing required fields: course, type, raw_text")
     else
       chunks <- lift (chunkText raw_text chunk_profile) ;;
       if (length chunks =? 0)%nat then
         ret (error_response 400 "No content produced")
       else
         embeddings <- embedText (JArr (map JStr chunks)) ;;
         let rows :=
           mapi_from 0
             (ingest_row course type subtopic assignment_type source_name
                embeddings)
             chunks in
         result <- await (InsertSelectId (str "kb_chunks") (JArr rows))
                     (insert_select_id env (str "kb_chunks") (JArr rows)) ;;
         data <- lift (get result "data") ;;
         error <- lift (get result "error") ;;
         if truthy error then ret (error_response 500 "Insert failed")
         else
           ids <- lift (map_get data "id") ;;
           ret {| status := 200;
                  payload :=
                    JObj [prop "success" (JBool true);
                          prop "chunks_stored"
                            (num (Z.of_nat (length rows)));
                          prop "ids" (JArr ids)] |})
    (ret (error_response 500 "Internal error")).

(** The argument object of the [match_kb_chunks] call. *)
Definition search_args
  (queryEmbedding course types subtopic assignment_type top_k threshold
    : JsValue) : JsValue :=
  JObj [prop "query_embedding" queryEmbedding;
        prop "match_course" (js_or course JNull);
        prop "match_types"
          (if truthy (get_opt types "length") then types else JNull);
        prop "match_subtopic" (js_or subtopic JNull);
        prop "match_assignment_type" (js_or assignment_type JNull);
        prop "match_limit" top_k;
        prop "match_threshold" threshold].

(** POST /search_content *)
Definition search_content (body : JsValue) : Eff Response :=
  try_catch
    (course <- lift (get body "course") ;;
     query <- lift (get body "query") ;;
     types <- lift (get body "types") ;;
     subtopic <- lift (get body "subtopic") ;;
     assignment_type <- lift (get body "assignment_type") ;;
     top_k <- lift (get body "top_k") ;;
     let top_k := with_default top_k (num 8) in
     threshold <- lift (get body "threshold") ;;
     let threshold := with_default threshold (JNum (7 # 10)) in
     if negb (truthy query) then
       ret (error_response 400 "Missing query text")
     else
       embeddings <- embedText query ;;
       let queryEmbedding := hd JUndefined embeddings in
       let args :=
         search_args queryEmbedding course types subtopic assignment_type
           top_k threshold in
       result <- await (Rpc (str "match_kb_chunks") args)
                   (rpc env (str "match_kb_chunks") args) ;;
       data <- lift (get result "data") ;;
       error <- lift (get result "error") ;;
       if truthy error then ret (error_response 500 "Search failed")
       else
         ret {| status := 200;
                payload :=
                  JObj [prop "success" (JBool true);
                        prop "results" (js_or data (JArr []))] |})
    (ret (error_response 500 "Internal error")).

(** The row that /log_completion_result hands to the store. *)
Definition completion_row
  (course type subtopic assignment_type original_prompt model_answer
     outcome score teacher_feedback answerEmbedding : JsValue) : JsValue :=
  JObj [prop "course" course;
        prop "type" type;
        prop "subtopic" subtopic;
        prop "assignment_type" assignment_type;
        prop "original_prompt" original_prompt;
        prop "model_answer" model_answer;
        prop "outcome" outcome;
        prop "score" score;
        prop "teacher_feedback" teacher_feedback;
        prop "chunk_index" (num 0);
        prop "content" model_answer;
        prop "embedding" answerEmbedding].

(** [outcome === 'success' ? 'completion_good' : 'completion_bad'] *)
Definition completion_type (outcome : JsValue) : JsValue :=
  if strict_eq_str outcome (str "success") then lit "completion_good"
  else lit "completion_bad".

(** POST /log_completion_result *)
Definition log_completion_result (body : JsValue) : Eff Response :=
  try_catch
    (course <- lift (get body "course") ;;
     assignment_type <- lift (get body "assignment_type") ;;
     subtopic <- lift (get body "subtopic") ;;
     original_prompt <- lift (get body "original_prompt") ;;
     model_answer <- lift (get body "model_answer") ;;
     outcome <- lift (get body "outcome") ;;
     score <- lift (get body "score") ;;
     teacher_feedback <- lift (get body "teacher_feedback") ;;
     if negb (truthy course) || negb (truthy assignment_type)
        || negb (truthy model_answer) || negb (truthy outcome)
     then ret (error_response 400 "Missing required fields")
     else
       let type := completion_type outcome in
       embeddings <- embedText model_answer ;;
       let answerEmbedding := hd JUndefined embeddings in
       let row :=
         completion_row course type subtopic assignment_type
           original_prompt model_answer outcome score teacher_feedback
           answerEmbedding in
       result <- await (InsertSelectId (str "kb_chunks") row)
                   (insert_select_id env (str "kb_chunks") row) ;;
       data <- lift (get result "data") ;;
       error <- lift (get result "error") ;;
       if truthy error then ret (error_response 500 "Insert failed")
       else
         first <- lift (get_first data) ;;
         ret {| status := 200;
                payload :=
                  JObj [prop "success" (JBool true);
                        prop "id" (get_opt first "id")] |})
    (ret (error_response 500 "Internal error")).

End Handlers.

(** ** The manifest *)

(** [{ type: t }] *)
Definition schema_type (t : string) : JsValue := JObj [prop "type" (lit t)].

(** The body of the answer of GET /.well-known/mcp.json. *)
Definition mcp_manifest : JsValue :=
  JObj
    [prop "version" (lit "1.0.0");
     prop "tools"
       (JArr
          [JObj
             [prop "name" (lit "ingest_content");
              prop "description"
                (lit "Store user-provided resources or instructions into Supabase.");
              prop "input_schema"
                (JObj
                   [prop "type" (lit "object");
                    prop "properties"
                      (JObj
                         [prop "course" (schema_type "string");
                          prop "type" (schema_type "string");
                          prop "subtopic" (schema_type "string");
                          prop "assignment_type" (schema_type "string");
                          prop "chunk_profile" (schema_type "string");
                          prop "raw_text" (schema_type "string");
                          prop "source_name" (schema_type "string")]);
                    prop "required"
                      (JArr [lit "course"; lit "type"; lit "raw_text"])])];
           JObj
             [prop "name" (lit "search_content");
              prop "description"
                (lit "Semantic search through stored resources, instructions, and past completions.");
              prop "input_schema"
                (JObj
                   [prop "type" (lit "object");
                    prop "properties"
                      (JObj
                         [prop "course" (schema_type "string");
                          prop "query" (schema_type "string");
                          prop "types"
                            (JObj [prop "type" (lit "array");
                                   prop "items" (schema_type "string")]);
                          prop "subtopic" (schema_type "string");
                          prop "assignment_type" (schema_type "string");
                          prop "top_k" (schema_type "number");
                          prop "threshold" (schema_type "number")]);
                    prop "required" (JArr [lit "query"])])];
           JObj
             [prop "name" (lit "log_completion_result");
              prop "description"
                (lit "Store graded assignment results in Supabase to improve future outputs.");
              prop "input_schema"
                (JObj
                   [prop "type" (lit "object");
                    prop "properties"
                      (JObj
                         [prop "course" (schema_type "string");
                          prop "assignment_type" (schema_type "string");
                          prop "subtopic" (schema_type "string");
                          prop "original_prompt" (schema_type "string");
                          prop "model_answer" (schema_type "string");
                          prop "outcome" (schema_type "string");
                          prop "score" (schema_type "number");
                          prop "teacher_feedback" (schema_type "string")]);
                    prop "required"
                      (JArr [lit "course"; lit "assignment_type";
                             lit "model_answer"; lit "outcome"])])]])].

(** GET /.well-known/mcp.json *)
Definition well_known_mcp : Response :=
  {| status := 200; payload := mcp_manifest |}.

(** The items of an array; no item for any other value. *)
Definition items_of (v : JsValue) : list JsValue :=
  match v with
  | JArr items => items
  | _ => []
  end.

(** The names that the manifest lists as required for the tool [tool]. *)
Definition manifest_required (tool : string) : list JsValue :=
  match find (fun t => strict_eq_str (get_opt t "name") (str tool))
          (items_of (get_opt (payload well_known_mcp) "tools")) with
  | Some t => items_of (get_opt (get_opt t "input_schema") "required")
  | None => []
  end.

(** The names that the manifest declares as properties of the input of the
    tool [tool]. *)
Definition manifest_properties (tool : string) : list JsString :=
  match find (fun t => strict_eq_str (get_opt t "name") (str tool))
          (items_of (get_opt (payload well_known_mcp) "tools")) with
  | Some t =>
      match get_opt (get_opt t "input_schema") "properties" with
      | JObj props => map fst props
      | _ => []
      end
  | None => []
  end.

(** Some required name of [names] has a falsy value in the object [props]. *)
Definition lacks_required (names : list JsValue)
    (props : list (JsString * JsValue)) : bool :=
  existsb (fun name =>
             match name with
             | JStr k => negb (truthy (lookup k props))
             | _ => false
             end) names.

(** ** Sample inputs *)

(** A text of [n] words, all of them [w]. *)
Definition sample_text (n : nat) : JsString := join (repeat (str "w") n).

(** Services that answer every call: one embedding per request, one
    stored row with id 7, no search result. *)
Definition sample_services : Services :=
  {| embeddings_create := fun _ =>
       Some (JObj [prop "data"
                     (JArr [JObj [prop "embedding" (JArr [num 1; num 0])]])]);
     insert_select_id := fun _ _ =>
       Some (JObj [prop "data" (JArr [JObj [prop "id" (num 7)]]);
                   prop "error" JNull]);
     rpc := fun _ _ =>
       Some (JObj [prop "data" (JArr []); prop "error" JNull]) |}.

(** Services whose store refuses every request. *)
Definition sample_failing_store : Services :=
  {| embeddings_create := embeddings_create sample_services;
     insert_select_id := fun _ _ =>
       Some (JObj [prop "data" JNull;
                   prop "error" (JObj [prop "message" (lit "denied")])]);
     rpc := fun _ _ =>
       Some (JObj [prop "data" JNull;
                   prop "error" (JObj [prop "message" (lit "denied")])]) |}.

(** An ingestion request with the given [raw_text]. *)
Definition sample_ingest (raw_text : JsValue) : JsValue :=
  JObj [prop "course" (lit "algebra");
        prop "type" (lit "resource");
        prop "raw_text" raw_text].

(** A completion log request with the given [outcome]. *)
Definition sample_completion (outcome : JsValue) : JsValue :=
  JObj [prop "course" (lit "algebra");
        prop "assignment_type" (lit "essay");
        prop "model_answer" (lit "x = 2");
        prop "outcome" outcome;
        prop "score" (num 9)].

(** A search request with degenerate filters. *)
Definition sample_search : list (JsString * JsValue) :=
  [prop "query" (lit "groups");
   prop "course" (lit "");
   prop "types" (JArr []);
   prop "subtopic" (lit "");
   prop "assignment_type" (lit "")].

(** The request body without the property [name]. *)
Definition remove_prop (name : string) (props : list (JsString * JsValue))
  : list (JsString * JsValue) :=
  filter (fun kv => negb (jsstring_eqb (fst kv) (str name))) props.

(** ** Putting chunks together again *)

(** The words of the first chunk, followed by the words of every later chunk
    without its first [overlap] ones. *)
Definition reassemble (overlap : Z) (chunks : list JsString)
  : list JsString :=
  match chunks with
  | [] => []
  | c :: rest =>
      words_of c
      ++ concat (map (fun c' => skipn (Z.to_nat overlap) (words_of c')) rest)
  end.

(** * Properties *)

(** ** Strings and values *)

Lemma jsstring_eqb_eq (a b : JsString) : jsstring_eqb a b = true <-> a = b.
Proof.
  revert b; induction a as [|x a IH]; intros [|y b]; simpl;
    try (split; [discriminate | congruence || discriminate]); try tauto.
  rewrite andb_true_iff, N.eqb_eq, IH.
  split; [intros [-> ->]; reflexivity | intros [= -> ->]; auto].
Qed.

Lemma strict_eq_str_spec (v : JsValue) (s : JsString) :
  strict_eq_str v s = true <-> v = JStr s.
Proof.
  destruct v; simpl; try (split; [discriminate | intros [=]]).
  rewrite jsstring_eqb_eq. split; [intros ->; auto | intros [= ->]; auto].
Qed.

Lemma strict_eq_str_false (v : JsValue) (s : JsString) :
  v <> JStr s -> strict_eq_str v s = false.
Proof.
  intros H. destruct (strict_eq_str v s) eqn:E; [|reflexivity].
  apply strict_eq_str_spec in E. contradiction.
Qed.

(** ** Slices *)

Section Slices.
Context {A : Type}.
Implicit Types l : list A.

Lemma Forall_firstn' (P : A -> Prop) (n : nat) l :
  Forall P l -> Forall P (firstn n l).
Proof.
  intros H. revert n. induction H; intros [|n]; simpl; auto.
Qed.

Lemma Forall_skipn' (P : A -> Prop) (n : nat) l :
  Forall P l -> Forall P (skipn n l).
Proof.
  intros H. revert n. induction H; intros [|n]; simpl; auto.
Qed.

Lemma nth_error_skipn' (n i : nat) l :
  nth_error (skipn n l) i = nth_error l (n + i).
Proof.
  revert l; induction n as [|n IH]; intros [|x l]; simpl; auto.
  destruct i; reflexivity.
Qed.

Lemma slice_inside l (s e : Z) :
  0 <= s -> s <= e -> e <= Z.of_nat (length l) ->
  slice l s e = firstn (Z.to_nat (e - s)) (skipn (Z.to_nat s) l).
Proof.
  intros Hs Hse He. unfold slice.
  destruct (Z.ltb_spec s 0); [lia|].
  destruct (Z.ltb_spec e 0); [lia|].
  rewrite !Z.min_l by lia. reflexivity.
Qed.

Lemma slice_length l (s e : Z) :
  0 <= s -> s <= e -> e <= Z.of_nat (length l) ->
  length (slice l s e) = Z.to_nat (e - s).
Proof.
  intros Hs Hse He. rewrite slice_inside by assumption.
  rewrite length_firstn, length_skipn. lia.
Qed.

Lemma slice_nth_error l (s e k : Z) :
  0 <= s -> s <= k -> k < e -> e <= Z.of_nat (length l) ->
  nth_error (slice l s e) (Z.to_nat (k - s)) = nth_error l (Z.to_nat k).
Proof.
  intros Hs Hk Hke He. rewrite slice_inside by lia.
  rewrite nth_error_firstn.
  destruct (Nat.ltb_spec (Z.to_nat (k - s)) (Z.to_nat (e - s))); [|lia].
  rewrite nth_error_skipn'. f_equal. lia.
Qed.

Lemma slice_Forall (P : A -> Prop) l (s e : Z) :
  Forall P l -> Forall P (slice l s e).
Proof.
  intros H. unfold slice. apply Forall_firstn', Forall_skipn', H.
Qed.

Lemma slice_nonempty l (s e : Z) :
  0 <= s -> s < e -> e <= Z.of_nat (length l) -> slice l s e <> [].
Proof.
  intros Hs Hse He E. apply (f_equal (@length A)) in E.
  rewrite slice_length in E by lia. simpl in E. lia.
Qed.
Lemma slice_skipn l (s s' e : Z) :
  0 <= s -> s <= s' -> s' <= e -> e <= Z.of_nat (length l) ->
  skipn (Z.to_nat (s' - s)) (slice l s e) = slice l s' e.
Proof.
  intros Hs Hs' He Hl. rewrite !slice_inside by lia.
  rewrite skipn_firstn_comm, skipn_skipn. f_equal; [lia|]. f_equal. lia.
Qed.

Lemma slice_firstn l (s e e' : Z) :
  0 <= s -> s <= e -> e <= e' -> e' <= Z.of_nat (length l) ->
  firstn (Z.to_nat (e - s)) (slice l s e') = slice l s e.
Proof.
  intros Hs He He' Hl. rewrite !slice_inside by lia.
  rewrite firstn_firstn. f_equal. lia.
Qed.
End Slices.

(** ** Splitting into words and joining back *)

Lemma split_go_spaceless (s : JsString) :
  forall in_sep cur, spaceless cur ->
    Forall spaceless (split_go in_sep cur s).
Proof.
  induction s as [|c rest IH]; intros in_sep cur Hcur; simpl.
  - constructor; [|constructor]. apply Forall_rev, Hcur.
  - destruct (is_space c) eqn:Ec.
    + destruct in_sep.
      * apply IH. constructor.
      * constructor; [apply Forall_rev, Hcur | apply IH; constructor].
    + apply IH. constructor; assumption.
Qed.

Lemma words_of_are_words (text : JsString) : Forall is_word (words_of text).
Proof.
  unfold words_of, split_spaces.
  pose proof (split_go_spaceless text false [] (Forall_nil _)) as H.
  induction H as [|w ws Hw Hws IH]; simpl; [constructor|].
  destruct w as [|c w]; simpl; [exact IH|].
  constructor; [split; [discriminate | exact Hw] | exact IH].
Qed.

Lemma split_go_word (w : JsString) :
  forall in_sep cur rest, spaceless w -> w <> [] ->
    split_go in_sep cur (w ++ rest) = split_go false (rev w ++ cur) rest.
Proof.
  induction w as [|c w IH]; intros in_sep cur rest Hw Hne; [congruence|].
  inversion Hw as [|? ? Hc Hw']; subst. simpl. rewrite Hc.
  destruct w as [|d w]; [reflexivity|].
  rewrite IH by (auto; discriminate).
  simpl. rewrite <- !app_assoc. reflexivity.
Qed.

Lemma split_go_join (ws : list JsString) :
  Forall is_word ws -> ws <> [] ->
  forall in_sep, split_go in_sep [] (join ws) = ws.
Proof.
  induction 1 as [|w ws [Hne Hw] Hws IH]; intros Hnil in_sep; [congruence|].
  destruct ws as [|w' ws].
  - simpl. rewrite <- (app_nil_r w) at 1.
    rewrite split_go_word by assumption. simpl.
    rewrite app_nil_r, rev_involutive. reflexivity.
  - change (join (w :: w' :: ws)) with (w ++ 32%N :: join (w' :: ws)).
    rewrite split_go_word by assumption.
    cbn [split_go]. change (is_space 32) with true. cbv iota.
    rewrite app_nil_r, rev_involutive, IH by discriminate. reflexivity.
Qed.

(** Splitting the join of words gives the words back. *)
Lemma words_of_join (ws : list JsString) :
  Forall is_word ws -> words_of (join ws) = ws.
Proof.
  intros H. destruct ws as [|w ws]; [reflexivity|].
  unfold words_of, split_spaces. rewrite split_go_join by (auto; discriminate).
  clear -H. induction H as [|x xs [Hne _] _ IH]; [reflexivity|].
  simpl. destruct x; [congruence|]. simpl. f_equal. exact IH.
Qed.

Lemma nonempty_rev (s : JsString) : nonempty (rev s) = nonempty s.
Proof.
  destruct s as [|c s]; [reflexivity|]. simpl.
  destruct (rev s); reflexivity.
Qed.

(** The words that the source computes are the words of the
    specification. *)
Lemma split_go_spec_words (s : JsString) :
  forall in_sep cur, (in_sep = true -> cur = []) ->
    filter nonempty (split_go in_sep cur s) = spec_words cur s.
Proof.
  induction s as [|c rest IH]; intros in_sep cur Hsep; simpl.
  - rewrite nonempty_rev. reflexivity.
  - destruct (is_space c).
    + destruct in_sep.
      * rewrite (Hsep eq_refl). apply IH. reflexivity.
      * simpl. rewrite nonempty_rev, IH by reflexivity. reflexivity.
    + apply IH. discriminate.
Qed.

Lemma words_of_spec_words (text : JsString) :
  words_of text = spec_words [] text.
Proof. apply split_go_spec_words. discriminate. Qed.

Lemma words_of_blank (s : JsString) :
  forallb is_space s = true -> words_of s = [].
Proof.
  unfold words_of, split_spaces. generalize false.
  induction s as [|c rest IH]; intros in_sep H; [reflexivity|].
  simpl in *. apply andb_true_iff in H as [-> H].
  destruct in_sep; simpl; apply IH, H.
Qed.

Lemma join_nonempty (ws : list JsString) :
  Forall is_word ws -> ws <> [] -> join ws <> [].
Proof.
  intros H Hne. destruct H as [|w ws [Hw _] _]; [congruence|].
  destruct w; [congruence|]. destruct ws; simpl; discriminate.
Qed.

(** ** The loop of the chunker *)

Section LoopFacts.
Import Chunker.
Variable cfg : ChunkConfig.
Variable words : list JsString.

#[local] Abbreviation size := (sizeWords cfg).
#[local] Abbreviation overlap := (overlapWords cfg).
#[local] Abbreviation total := (words_length words).

(** The chunks of the loop are the texts of its windows. *)
Lemma loop_as_windows (fuel : nat) :
  forall st,
    loop cfg words fuel st
    = option_map (fun ws => chunks st ++ map (chunk_of words) ws)
        (loop_windows cfg words fuel (start st)).
Proof.
  induction fuel as [|fuel IH]; intros st; [reflexivity|].
  simpl. unfold loop_pass.
  destruct (start st <? total); [|simpl; now rewrite app_nil_r].
  cbv zeta. destruct (window_end cfg words (start st) =? total).
  - reflexivity.
  - rewrite IH. cbn [start chunks].
    destruct (loop_windows cfg words fuel _); [|reflexivity].
    simpl. rewrite <- app_assoc. reflexivity.
Qed.

(** A pass that does not leave the loop has taken a full window and moves
    [start] forward by [sizeWords - overlapWords]. *)
Lemma loop_pass_continues (st st' : LoopState) :
  loop_pass cfg words st = inl st' ->
  start st + size < total
  /\ start st' = start st + size - overlap
  /\ chunks st'
     = chunks st ++ [join (slice words (start st) (start st + size))].
Proof.
  unfold loop_pass, window_end.
  destruct (Z.ltb_spec (start st) total); [|discriminate].
  cbv zeta. destruct (Z.eqb_spec (Z.min (start st + size) total) total);
    [discriminate|].
  intros [= <-]. cbn [start chunks].
  assert (Z.min (start st + size) total = start st + size) as -> by lia.
  repeat split; lia.
Qed.

Lemma loop_windows_fuel (fuel : nat) :
  forall start ws,
    loop_windows cfg words fuel start = Some ws ->
    forall fuel', (fuel <= fuel')%nat ->
      loop_windows cfg words fuel' start = Some ws.
Proof.
  induction fuel as [|fuel IH]; intros s ws H fuel' Hle; [discriminate|].
  destruct fuel' as [|fuel']; [lia|].
  simpl in *. destruct (s <? total); [|assumption].
  destruct (window_end cfg words s =? total); [assumption|].
  destruct (loop_windows cfg words fuel _) as [ws'|] eqn:E; [|discriminate].
  rewrite (IH _ _ E) by lia. assumption.
Qed.

(** The loop ends when the overlap is smaller than the size: every pass
    that goes on moves [start] forward by at least one word. *)
Lemma loop_windows_terminates (fuel : nat) :
  overlap < size ->
  forall start,
    Z.max 0 (total - start) < Z.of_nat fuel ->
    exists ws, loop_windows cfg words fuel start = Some ws.
Proof.
  intros Hcfg. induction fuel as [|fuel IH]; intros s Hfuel; [lia|].
  simpl. destruct (Z.ltb_spec s total); [|eauto].
  unfold window_end.
  destruct (Z.eqb_spec (Z.min (s + size) total) total); [eauto|].
  destruct (IH (Z.min (s + size) total - overlap)) as [ws ->]; [lia|].
  simpl. eauto.
Qed.

(** With a sensible profile, the windows of the loop are the windows of
    the specification. *)
Lemma loop_windows_sliding (fuel : nat) :
  0 <= overlap -> overlap < size ->
  forall start ws,
    start < total ->
    loop_windows cfg words fuel start = Some ws ->
    sliding_windows size overlap total start ws.
Proof.
  intros Hov Hcfg. induction fuel as [|fuel IH]; intros s ws Hs H;
    [discriminate|].
  simpl in H. destruct (Z.ltb_spec s total); [|lia].
  unfold window_end in H.
  destruct (Z.eqb_spec (Z.min (s + size) total) total) as [E|E].
  - injection H as <-. rewrite E. now constructor.
  - destruct (loop_windows cfg words fuel _) as [ws'|] eqn:E';
      [|discriminate].
    injection H as <-. apply sliding_next; auto.
    apply IH; [lia | exact E'].
Qed.
End LoopFacts.

(** ** The windows of the specification *)

Section Windows.
Variables size overlap total : Z.
Hypothesis overlap_nonneg : 0 <= overlap.
Hypothesis overlap_small : overlap < size.

#[local] Abbreviation sliding := (sliding_windows size overlap total).

Lemma sliding_head start ws :
  sliding start ws -> exists end_ rest, ws = (start, end_) :: rest.
Proof. destruct 1; eauto. Qed.

Lemma sliding_end start ws :
  sliding start ws ->
  forall i s e, nth_error ws i = Some (s, e) -> e = Z.min (s + size) total.
Proof.
  induction 1 as [s0 E|s0 e0 rest -> Hne Hrest IH]; intros [|i] s e Hi;
    simpl in Hi.
  - injection Hi as <- <-. auto.
  - destruct i; discriminate.
  - injection Hi as <- <-. reflexivity.
  - eauto.
Qed.

Lemma sliding_consecutive start ws :
  sliding start ws ->
  forall i s e s' e',
    nth_error ws i = Some (s, e) -> nth_error ws (S i) = Some (s', e') ->
    s' = e - overlap.
Proof.
  induction 1 as [s0 E|s0 e0 rest -> Hne Hrest IH];
    intros [|i] s e s' e' Hi Hi'; simpl in Hi, Hi'.
  - discriminate.
  - destruct i; discriminate.
  - injection Hi as <- <-.
    destruct (sliding_head _ _ Hrest) as (e1 & rest' & ->).
    simpl in Hi'. injection Hi' as <- <-. reflexivity.
  - eauto.
Qed.

Lemma sliding_stops start ws :
  sliding start ws ->
  forall i s e, nth_error ws i = Some (s, e) ->
    (e = total <-> S i = length ws).
Proof.
  induction 1 as [s0 E|s0 e0 rest -> Hne Hrest IH]; intros [|i] s e Hi;
    simpl in Hi.
  - injection Hi as <- <-. simpl. tauto.
  - destruct i; discriminate.
  - injection Hi as <- <-.
    destruct (sliding_head _ _ Hrest) as (e1 & rest' & ->).
    simpl. split; [contradiction | discriminate].
  - rewrite (IH _ _ _ Hi). simpl. split; lia.
Qed.

Lemma sliding_bounds start ws :
  sliding start ws -> 0 <= start -> start < total ->
  forall i s e, nth_error ws i = Some (s, e) ->
    0 <= s /\ s < e /\ e <= total.
Proof.
  induction 1 as [s0 E|s0 e0 rest -> Hne Hrest IH]; intros H0 Ht [|i] s e Hi;
    simpl in Hi.
  - injection Hi as <- <-. lia.
  - destruct i; discriminate.
  - injection Hi as <- <-. lia.
  - apply (IH ltac:(lia) ltac:(lia) _ _ _ Hi).
Qed.

Lemma sliding_covers start ws :
  sliding start ws ->
  forall k, start <= k -> k < total ->
    exists i s e, nth_error ws i = Some (s, e) /\ s <= k /\ k < e.
Proof.
  induction 1 as [s0 E|s0 e0 rest -> Hne Hrest IH]; intros k Hk Ht.
  - exists 0%nat, s0, total. simpl. auto.
  - destruct (Z_lt_le_dec k (Z.min (s0 + size) total)) as [Hin|Hout].
    + exists 0%nat, s0, (Z.min (s0 + size) total). simpl. auto.
    + destruct (IH k ltac:(lia) Ht) as (i & s & e & Hi & Hs).
      exists (S i), s, e. simpl. auto.
Qed.

Lemma sliding_overlap start ws :
  sliding start ws ->
  forall i s e s' e',
    nth_error ws i = Some (s, e) -> nth_error ws (S i) = Some (s', e') ->
    s <= s' /\ s' <= e /\ e <= e' /\ e - s' = overlap.
Proof.
  intros H i s e s' e' Hi Hi'.
  pose proof (sliding_consecutive _ _ H _ _ _ _ _ Hi Hi') as ->.
  pose proof (sliding_end _ _ H _ _ _ Hi) as He.
  pose proof (sliding_end _ _ H _ _ _ Hi') as He'.
  assert (e <> total) as Hne.
  { intros E. apply (sliding_stops _ _ H _ _ _ Hi) in E.
    assert (S i < length ws)%nat
      by (apply nth_error_Some; rewrite Hi'; discriminate).
    lia. }
  lia.
Qed.
End Windows.

(** ** Profiles *)

Lemma getChunkConfig_with_default (profile : JsValue) :
  getChunkConfig (with_default profile (lit "default"))
  = getChunkConfig profile.
Proof. destruct profile; reflexivity. Qed.

Lemma getChunkConfig_cases (profile : JsValue) :
  getChunkConfig profile = {| sizeWords := 400; overlapWords := 60 |}
  \/ getChunkConfig profile = {| sizeWords := 1400; overlapWords := 180 |}
  \/ getChunkConfig profile = {| sizeWords := 900; overlapWords := 120 |}.
Proof.
  unfold getChunkConfig.
  destruct (strict_eq_str _ (str "short_form")); auto.
  destruct (strict_eq_str _ (str "long_book")); auto.
Qed.

Lemma getChunkConfig_valid (profile : JsValue) :
  0 <= overlapWords (getChunkConfig profile)
  /\ overlapWords (getChunkConfig profile) < sizeWords (getChunkConfig profile)
  /\ 0 < sizeWords (getChunkConfig profile).
Proof.
  destruct (getChunkConfig_cases profile) as [-> | [-> | ->]]; simpl; lia.
Qed.

(** ** [chunkText] on a string *)

Lemma chunkText_string (text : JsString) (profile : JsValue) :
  chunkText (JStr text) profile
  = match Chunker.chunk_words (getChunkConfig profile) (words_of text)
            (S (length (words_of text))) with
    | Some chunks => Returns chunks
    | None => Diverges
    end.
Proof.
  unfold chunkText. rewrite getChunkConfig_with_default. reflexivity.
Qed.

(** On a text longer than a chunk, [chunkText] returns the texts of the
    windows of the specification. *)
Lemma chunkText_long (text : JsString) (profile : JsValue) :
  sizeWords (getChunkConfig profile) < Z.of_nat (length (words_of text)) ->
  exists ws,
    chunkText (JStr text) profile
    = Returns (map (Chunker.chunk_of (words_of text)) ws)
    /\ sliding_windows (sizeWords (getChunkConfig profile))
         (overlapWords (getChunkConfig profile))
         (Z.of_nat (length (words_of text))) 0 ws.
Proof.
  intros Hlong.
  destruct (getChunkConfig_valid profile) as (Hov & Hcfg & Hsize).
  rewrite chunkText_string. unfold Chunker.chunk_words, Chunker.words_length.
  destruct (Nat.eqb_spec (length (words_of text)) 0); [lia|].
  destruct (Z.leb_spec (Z.of_nat (length (words_of text)))
              (sizeWords (getChunkConfig profile))); [lia|].
  rewrite loop_as_windows. cbn [Chunker.start Chunker.chunks].
  destruct (loop_windows_terminates (getChunkConfig profile) (words_of text)
              (S (length (words_of text))) Hcfg 0) as [ws Hws].
  { unfold Chunker.words_length. lia. }
  rewrite Hws. exists ws. split; [reflexivity|].
  eapply loop_windows_sliding; [exact Hov | exact Hcfg | | exact Hws].
  unfold Chunker.words_length. lia.
Qed.

(** ** The claims on the chunker *)

(** C1: on a text with more words than the profile's [sizeWords],
    [chunkText] returns the chunks of a sequence of windows [(start, end)]
    over the words, of which the first starts at index 0, each one ends at
    [min (start + sizeWords) total], each next one starts at the end of the
    previous one minus [overlapWords], and exactly the last one ends at the
    total word count; and a text of 1000 words under the profile
    [short_form] (size 400, overlap 60) gives exactly the three chunks of
    the words [0,400), [340,740) and [680,1000). *)
Theorem chunkText_windows :
  (forall (text : JsString) (profile : JsValue),
     let cfg := getChunkConfig profile in
     let words := words_of text in
     let total := Z.of_nat (length words) in
     sizeWords cfg < total ->
     exists ws : list (Z * Z),
       chunkText (JStr text) profile
       = Returns (map (fun w => join (slice words (fst w) (snd w))) ws)
       /\ (exists end_ rest, ws = (0, end_) :: rest)
       /\ (forall i s e, nth_error ws i = Some (s, e) ->
             e = Z.min (s + sizeWords cfg) total)
       /\ (forall i s e s' e',
             nth_error ws i = Some (s, e) ->
             nth_error ws (S i) = Some (s', e') ->
             s' = e - overlapWords cfg)
       /\ (forall i s e, nth_error ws i = Some (s, e) ->
             (e = total <-> S i = length ws)))
  /\ (forall text : JsString,
        let words := words_of text in
        length words = 1000%nat ->
        getChunkConfig (lit "short_form")
        = {| sizeWords := 400; overlapWords := 60 |}
        /\ chunkText (JStr text) (lit "short_form")
           = Returns [join (slice words 0 400);
                      join (slice words 340 740);
                      join (slice words 680 1000)]).
Proof.
  split.
  - intros text profile cfg words total Hlong.
    destruct (chunkText_long text profile Hlong) as (ws & Hres & Hws).
    exists ws. split; [exact Hres|].
    split; [exact (sliding_head _ _ _ _ _ Hws)|].
    split; [exact (sliding_end _ _ _ _ _ Hws)|].
    split; [exact (sliding_consecutive _ _ _ _ _ Hws)|].
    exact (sliding_stops _ _ _ _ _ Hws).
  - intros text words Hlen. split; [reflexivity|].
    rewrite chunkText_string.
    unfold Chunker.chunk_words, Chunker.words_length.
    fold words. rewrite Hlen.
    change (getChunkConfig (lit "short_form"))
      with {| sizeWords := 400; overlapWords := 60 |}.
    change (1000 =? 0)%nat with false.
    change (Z.of_nat 1000 <=? 400) with false. cbv iota.
    rewrite loop_as_windows. cbn [Chunker.start Chunker.chunks].
    assert (Chunker.loop_windows
              {| sizeWords := 400; overlapWords := 60 |} words 3 0
            = Some [(0, 400); (340, 740); (680, 1000)]) as H3.
    { unfold Chunker.loop_windows, Chunker.window_end, Chunker.words_length.
      rewrite Hlen. reflexivity. }
    rewrite (loop_windows_fuel _ _ _ _ _ H3) by lia.
    reflexivity.
Qed.

Lemma chunkText_windows_witness :
  (exists ws : list (Z * Z),
     chunkText (JStr (sample_text 401)) (lit "short_form")
     = Returns (map (fun w => join (slice (words_of (sample_text 401))
                                      (fst w) (snd w))) ws)
     /\ (exists end_ rest, ws = (0, end_) :: rest)
     /\ (forall i s e, nth_error ws i = Some (s, e) ->
           e = Z.min (s + 400) 401)
     /\ (forall i s e s' e',
           nth_error ws i = Some (s, e) ->
           nth_error ws (S i) = Some (s', e') ->
           s' = e - 60)
     /\ (forall i s e, nth_error ws i = Some (s, e) ->
           (e = 401 <-> S i = length ws)))
  /\ chunkText (JStr (sample_text 1000)) (lit "short_form")
     = Returns [join (slice (words_of (sample_text 1000)) 0 400);
                join (slice (words_of (sample_text 1000)) 340 740);
                join (slice (words_of (sample_text 1000)) 680 1000)].
Proof.
  split.
  - apply (proj1 chunkText_windows (sample_text 401) (lit "short_form")).
    vm_compute. reflexivity.
  - apply (proj2 chunkText_windows (sample_text 1000)).
    vm_compute. reflexivity.
Defined.

(** C2: on a text with more words than the profile's [sizeWords], every
    chunk is made of exactly the words of its window, every word of the
    text lies in the window of some chunk, and two consecutive chunks share
    exactly [overlapWords] words: the last ones of the first are the first
    ones of the second (the final pair included). *)
Theorem chunkText_covers_and_overlaps :
  forall (text : JsString) (profile : JsValue),
    let cfg := getChunkConfig profile in
    let words := words_of text in
    let total := Z.of_nat (length words) in
    sizeWords cfg < total ->
    exists ws : list (Z * Z),
      chunkText (JStr text) profile
      = Returns (map (fun w => join (slice words (fst w) (snd w))) ws)
      /\ (forall i s e, nth_error ws i = Some (s, e) ->
            0 <= s /\ s < e /\ e <= total
            /\ words_of (join (slice words s e)) = slice words s e)
      /\ (forall k, 0 <= k -> k < total ->
            exists i s e,
              nth_error ws i = Some (s, e) /\ s <= k /\ k < e
              /\ nth_error (slice words s e) (Z.to_nat (k - s))
                 = nth_error words (Z.to_nat k))
      /\ (forall i s e s' e',
            nth_error ws i = Some (s, e) ->
            nth_error ws (S i) = Some (s', e') ->
            s <= s' /\ e <= e' /\ e - s' = overlapWords cfg
            /\ skipn (Z.to_nat (s' - s)) (slice words s e)
               = firstn (Z.to_nat (overlapWords cfg)) (slice words s' e')).
Proof.
  intros text profile cfg words total Hlong.
  destruct (getChunkConfig_valid profile) as (Hov & Hcfg & Hsize).
  destruct (chunkText_long text profile Hlong) as (ws & Hres & Hws).
  fold cfg words total in Hov, Hcfg, Hsize, Hws.
  assert (forall i s e, nth_error ws i = Some (s, e) ->
            0 <= s /\ s < e /\ e <= total) as Hbounds.
  { apply (sliding_bounds _ _ _ Hov Hcfg _ _ Hws); lia. }
  exists ws. split; [exact Hres|]. repeat split.
  - apply (Hbounds _ _ _ H).
  - apply (Hbounds _ _ _ H).
  - apply (Hbounds _ _ _ H).
  - apply words_of_join, slice_Forall, words_of_are_words.
  - intros k Hk Hkt.
    destruct (sliding_covers _ _ _ Hov _ _ Hws k Hk Hkt)
      as (i & s & e & Hi & Hsk & Hke).
    exists i, s, e. repeat split; auto.
    destruct (Hbounds _ _ _ Hi) as (? & ? & ?).
    apply slice_nth_error; assumption.
  - apply (sliding_overlap _ _ _ Hov Hcfg _ _ Hws _ _ _ _ _ H H0).
  - apply (sliding_overlap _ _ _ Hov Hcfg _ _ Hws _ _ _ _ _ H H0).
  - apply (sliding_overlap _ _ _ Hov Hcfg _ _ Hws _ _ _ _ _ H H0).
  - destruct (sliding_overlap _ _ _ Hov Hcfg _ _ Hws _ _ _ _ _ H H0)
      as (Hs & Hs' & He & <-).
    destruct (Hbounds _ _ _ H) as (? & ? & ?).
    destruct (Hbounds _ _ _ H0) as (? & ? & ?).
    rewrite slice_skipn, slice_firstn by lia. reflexivity.
Qed.

Lemma chunkText_covers_and_overlaps_witness :
  exists ws : list (Z * Z),
    chunkText (JStr (sample_text 1000)) (lit "short_form")
    = Returns (map (fun w => join (slice (words_of (sample_text 1000))
                                     (fst w) (snd w))) ws)
    /\ (forall i s e, nth_error ws i = Some (s, e) ->
          0 <= s /\ s < e /\ e <= 1000
          /\ words_of (join (slice (words_of (sample_text 1000)) s e))
             = slice (words_of (sample_text 1000)) s e)
    /\ (forall k, 0 <= k -> k < 1000 ->
          exists i s e,
            nth_error ws i = Some (s, e) /\ s <= k /\ k < e
            /\ nth_error (slice (words_of (sample_text 1000)) s e)
                 (Z.to_nat (k - s))
               = nth_error (words_of (sample_text 1000)) (Z.to_nat k))
    /\ (forall i s e s' e',
          nth_error ws i = Some (s, e) ->
          nth_error ws (S i) = Some (s', e') ->
          s <= s' /\ e <= e' /\ e - s' = 60
          /\ skipn (Z.to_nat (s' - s))
               (slice (words_of (sample_text 1000)) s e)
             = firstn (Z.to_nat 60)
                 (slice (words_of (sample_text 1000)) s' e')).
Proof.
  apply (chunkText_covers_and_overlaps (sample_text 1000) (lit "short_form")).
  vm_compute. reflexivity.
Defined.

(** C3: on a text with at least one word and at most [sizeWords] words,
    [chunkText] returns exactly one chunk, which is the normalized text:
    the words of the text (split at every run of white space, no empty
    word kept) joined by single spaces; splitting that chunk again gives
    the same words. *)
Theorem chunkText_short_text :
  forall (text : JsString) (profile : JsValue),
    let words := words_of text in
    (0 < length words)%nat ->
    Z.of_nat (length words) <= sizeWords (getChunkConfig profile) ->
    chunkText (JStr text) profile = Returns [normalize text]
    /\ normalize text = join words
    /\ words_of (normalize text) = words.
Proof.
  intros text profile words Hpos Hshort.
  assert (normalize text = join words) as Hnorm.
  { unfold normalize, words. now rewrite words_of_spec_words. }
  rewrite Hnorm. split; [|split; [reflexivity|]].
  - rewrite chunkText_string. fold words.
    unfold Chunker.chunk_words, Chunker.words_length.
    destruct (Nat.eqb_spec (length words) 0); [lia|].
    destruct (Z.leb_spec (Z.of_nat (length words))
                (sizeWords (getChunkConfig profile))); [reflexivity | lia].
  - apply words_of_join, words_of_are_words.
Qed.

Lemma chunkText_short_text_witness :
  chunkText (JStr (str "  two   words ")) JUndefined
  = Returns [normalize (str "  two   words ")]
  /\ normalize (str "  two   words ")
     = join (words_of (str "  two   words "))
  /\ words_of (normalize (str "  two   words "))
     = words_of (str "  two   words ").
Proof.
  apply (chunkText_short_text (str "  two   words ") JUndefined);
    vm_compute; [lia | discriminate].
Defined.

(** C7: whenever [overlapWords < sizeWords], the body of [chunkText] ends
    on every list of words, within [words.length + 1] passes of the loop,
    because a pass that goes on moves [start] forward by
    [sizeWords - overlapWords], which is at least one word; in particular
    [chunkText] returns on every text under every profile name. *)
Theorem chunkText_terminates :
  (forall (cfg : ChunkConfig) (words : list JsString),
     overlapWords cfg < sizeWords cfg ->
     (exists chunks,
        forall fuel, (length words < fuel)%nat ->
          Chunker.chunk_words cfg words fuel = Some chunks)
     /\ (forall st st',
           Chunker.loop_pass cfg words st = inl st' ->
           Chunker.start st' - Chunker.start st
           >= sizeWords cfg - overlapWords cfg
           /\ Chunker.start st < Chunker.start st'))
  /\ (forall (text : JsString) (profile : JsValue),
        exists chunks, chunkText (JStr text) profile = Returns chunks).
Proof.
  assert (forall cfg words, overlapWords cfg < sizeWords cfg ->
            exists chunks,
              forall fuel, (length words < fuel)%nat ->
                Chunker.chunk_words cfg words fuel = Some chunks) as Hend.
  { intros cfg words Hcfg. unfold Chunker.chunk_words.
    destruct (length words =? 0)%nat; [eauto|].
    destruct (Chunker.words_length words <=? sizeWords cfg); [eauto|].
    destruct (loop_windows_terminates cfg words (S (length words)) Hcfg 0)
      as [ws Hws].
    { unfold Chunker.words_length. lia. }
    exists (map (Chunker.chunk_of words) ws). intros fuel Hfuel.
    rewrite loop_as_windows. cbn [Chunker.start Chunker.chunks].
    rewrite (loop_windows_fuel _ _ _ _ _ Hws) by lia. reflexivity. }
  split.
  - intros cfg words Hcfg. split; [apply Hend, Hcfg|].
    intros st st' Hpass.
    destruct (loop_pass_continues _ _ _ _ Hpass) as (_ & -> & _). lia.
  - intros text profile. rewrite chunkText_string.
    destruct (getChunkConfig_valid profile) as (_ & Hcfg & _).
    destruct (Hend _ (words_of text) Hcfg) as [chunks Hchunks].
    exists chunks. rewrite Hchunks by lia. reflexivity.
Qed.

Lemma chunkText_terminates_witness :
  (exists chunks,
     forall fuel, (length (repeat (str "w") 7) < fuel)%nat ->
       Chunker.chunk_words {| sizeWords := 3; overlapWords := 0 |}
         (repeat (str "w") 7) fuel = Some chunks)
  /\ (forall st st',
        Chunker.loop_pass {| sizeWords := 3; overlapWords := 0 |}
          (repeat (str "w") 7) st = inl st' ->
        Chunker.start st' - Chunker.start st >= 3 - 0
        /\ Chunker.start st < Chunker.start st').
Proof.
  apply (proj1 chunkText_terminates
           {| sizeWords := 3; overlapWords := 0 |} (repeat (str "w") 7)).
  simpl. lia.
Defined.

(** C8: [getChunkConfig] is a total function of any value: the name
    [short_form] gives size 400 and overlap 60, [long_book] gives 1400 and
    180, an absent name and every other value give the default 900 and
    120; and every profile it returns has [overlapWords < sizeWords]. *)
Theorem getChunkConfig_total :
  getChunkConfig (lit "short_form")
  = {| sizeWords := 400; overlapWords := 60 |}
  /\ getChunkConfig (lit "long_book")
     = {| sizeWords := 1400; overlapWords := 180 |}
  /\ getChunkConfig JUndefined = {| sizeWords := 900; overlapWords := 120 |}
  /\ (forall profile : JsValue,
        profile <> lit "short_form" -> profile <> lit "long_book" ->
        getChunkConfig profile = {| sizeWords := 900; overlapWords := 120 |})
  /\ (forall profile : JsValue,
        overlapWords (getChunkConfig profile)
        < sizeWords (getChunkConfig profile)).
Proof.
  repeat split; try reflexivity.
  - intros profile Hshort Hlong. unfold getChunkConfig.
    destruct profile; try reflexivity. simpl with_default.
    rewrite !strict_eq_str_false by assumption. reflexivity.
  - intros profile. apply getChunkConfig_valid.
Qed.

Lemma getChunkConfig_total_witness :
  getChunkConfig (lit "essay") = {| sizeWords := 900; overlapWords := 120 |}
  /\ getChunkConfig JNull = {| sizeWords := 900; overlapWords := 120 |}.
Proof.
  split.
  - apply (proj1 (proj2 (proj2 (proj2 getChunkConfig_total))) (lit "essay"));
      vm_compute; discriminate.
  - apply (proj1 (proj2 (proj2 (proj2 getChunkConfig_total))) JNull);
      discriminate.
Defined.

(** ** Handlers: generic facts *)

Lemma get_truthy (body : JsValue) (name : string) :
  truthy (get_opt body name) = true ->
  forall m, get body m = Returns (get_opt body m).
Proof.
  intros H m. destruct body; try discriminate H; unfold get_opt; simpl;
    try reflexivity; destruct (String.eqb m "length"); reflexivity.
Qed.

Lemma get_object (props : list (JsString * JsValue)) (name : string) :
  get (JObj props) name = Returns (lookup (str name) props).
Proof. reflexivity. Qed.

Lemma bind_lift_returns {A B} (a : A) (k : A -> Eff B) :
  bind (lift (Returns a)) k = k a.
Proof. unfold lift. simpl. destruct (k a). reflexivity. Qed.

Lemma bind_calls {A B} (m : Eff A) (k : A -> Eff B) :
  fst (bind m k)
  = fst m ++ match snd m with Returns a => fst (k a) | _ => [] end.
Proof.
  destruct m as [t [a| |]]; simpl; try (now rewrite app_nil_r).
  destruct (k a). reflexivity.
Qed.

Lemma try_catch_calls {A} (m : Eff A) (r : A) :
  fst (try_catch m (ret r)) = fst m.
Proof.
  destruct m as [t [a| |]]; simpl; try reflexivity. apply app_nil_r.
Qed.

(** [embedText] makes exactly one call, to the embedding provider. *)
Lemma embedText_calls (env : Services) (input : JsValue) :
  fst (embedText env input)
  = [EmbeddingsCreate
       (JObj [prop "model" (lit "text-embedding-3-small");
              prop "input" input])].
Proof.
  unfold embedText, await. rewrite bind_calls. cbn [fst snd].
  destruct (embeddings_create env _) as [response|]; [|reflexivity].
  rewrite bind_calls. cbn [lift fst snd app].
  destruct (get response "data"); reflexivity.
Qed.

Lemma get_defined (body : JsValue) (m : string) :
  body <> JUndefined -> body <> JNull -> get body m = Returns (get_opt body m).
Proof.
  intros Hu Hn. destruct body; try congruence; unfold get_opt; simpl;
    try reflexivity; destruct (String.eqb m "length"); reflexivity.
Qed.

Lemma jsstring_eqb_refl (a : JsString) : jsstring_eqb a a = true.
Proof. now apply jsstring_eqb_eq. Qed.

Lemma lookup_remove_prop (name : string) (k : JsString)
    (props : list (JsString * JsValue)) :
  lookup k (remove_prop name props)
  = if jsstring_eqb (str name) k then JUndefined else lookup k props.
Proof.
  induction props as [|[k' v] props IH]; simpl.
  - now destruct (jsstring_eqb (str name) k).
  - destruct (jsstring_eqb k' (str name)) eqn:E1; simpl.
    + apply jsstring_eqb_eq in E1. subst k'. rewrite IH.
      now destruct (jsstring_eqb (str name) k).
    + rewrite IH. destruct (jsstring_eqb k' k) eqn:E2; [|reflexivity].
      apply jsstring_eqb_eq in E2. subst k'.
      destruct (jsstring_eqb (str name) k) eqn:E3; [|reflexivity].
      apply jsstring_eqb_eq in E3. subst k.
      now rewrite jsstring_eqb_refl in E1.
Qed.

(** ** /log_completion_result *)

(** A request that passes the check of the required fields, and whose
    answer gets embedded, makes two calls: the embedding of [model_answer]
    and the insertion of one row. *)
Lemma log_completion_result_calls (env : Services) (body : JsValue) :
  truthy (get_opt body "course") = true ->
  truthy (get_opt body "assignment_type") = true ->
  truthy (get_opt body "model_answer") = true ->
  truthy (get_opt body "outcome") = true ->
  forall embeddings,
    snd (embedText env (get_opt body "model_answer")) = Returns embeddings ->
    fst (log_completion_result env body)
    = [EmbeddingsCreate
         (JObj [prop "model" (lit "text-embedding-3-small");
                prop "input" (get_opt body "model_answer")]);
       InsertSelectId (str "kb_chunks")
         (completion_row
            (get_opt body "course")
            (completion_type (get_opt body "outcome"))
            (get_opt body "subtopic")
            (get_opt body "assignment_type")
            (get_opt body "original_prompt")
            (get_opt body "model_answer")
            (get_opt body "outcome")
            (get_opt body "score")
            (get_opt body "teacher_feedback")
            (hd JUndefined embeddings))].
Proof.
  intros Hc Ha Hm Ho embeddings Hemb.
  unfold log_completion_result. rewrite try_catch_calls.
  rewrite !(get_truthy body _ Hc), !bind_lift_returns.
  rewrite Hc, Ha, Hm, Ho. cbn [negb orb].
  rewrite bind_calls, embedText_calls, Hemb.
  rewrite bind_calls. unfold await at 1. cbn [fst snd app].
  do 2 f_equal.
  destruct (insert_select_id env _ _) as [result|]; [|reflexivity].
  unfold await. cbn [snd].
  destruct (get result "data") as [data| |]; try reflexivity.
  rewrite bind_lift_returns.
  destruct (get result "error") as [error| |]; try reflexivity.
  rewrite bind_lift_returns.
  destruct (truthy error); [reflexivity|].
  destruct (get_first data); reflexivity.
Qed.

Lemma completion_type_good (outcome : JsValue) :
  completion_type outcome = lit "completion_good" <-> outcome = lit "success".
Proof.
  unfold completion_type.
  destruct (strict_eq_str outcome (str "success")) eqn:E.
  - apply strict_eq_str_spec in E. tauto.
  - split; [discriminate|]. intros H. apply strict_eq_str_spec in H.
    unfold lit in E. congruence.
Qed.

Lemma completion_type_bad (outcome : JsValue) :
  outcome <> lit "success" -> completion_type outcome = lit "completion_bad".
Proof.
  intros H. unfold completion_type.
  now rewrite strict_eq_str_false by exact H.
Qed.

(** C4, as the code has it: a request that passes the check of the required
    fields stores a row whose type is [completion_good] exactly when
    [outcome] is the string [success], and [completion_bad] for every other
    truthy [outcome], ambiguous ones included; a request whose [outcome] is
    falsy (absent, null, false, 0 or the empty string) is refused with
    status 400 and nothing is stored. *)
Theorem log_completion_type :
  (forall (env : Services) (body : JsValue),
     truthy (get_opt body "course") = true ->
     truthy (get_opt body "assignment_type") = true ->
     truthy (get_opt body "model_answer") = true ->
     truthy (get_opt body "outcome") = true ->
     forall embeddings,
       snd (embedText env (get_opt body "model_answer"))
       = Returns embeddings ->
       exists row,
         fst (log_completion_result env body)
         = [EmbeddingsCreate
              (JObj [prop "model" (lit "text-embedding-3-small");
                     prop "input" (get_opt body "model_answer")]);
            InsertSelectId (str "kb_chunks") row]
         /\ (get_opt row "type" = lit "completion_good"
             <-> get_opt body "outcome" = lit "success")
         /\ (get_opt body "outcome" <> lit "success" ->
             get_opt row "type" = lit "completion_bad"))
  /\ (forall (env : Services) (body : JsValue),
        body <> JUndefined -> body <> JNull ->
        truthy (get_opt body "outcome") = false ->
        log_completion_result env body
        = ([], Returns (error_response 400 "Missing required fields"))).
Proof.
  split.
  - intros env body Hc Ha Hm Ho embeddings Hemb.
    eexists. split;
      [apply (log_completion_result_calls env body Hc Ha Hm Ho _ Hemb)|].
    change (get_opt (completion_row _ ?t _ _ _ _ _ _ _ _) "type") with t.
    split; [apply completion_type_good | apply completion_type_bad].
  - intros env body Hu Hn Ho. unfold log_completion_result.
    rewrite !(get_defined body _ Hu Hn), !bind_lift_returns.
    rewrite Ho. cbn [negb]. rewrite !orb_true_r. reflexivity.
Qed.

Lemma log_completion_type_witness :
  (exists row,
     fst (log_completion_result sample_services
            (sample_completion (lit "success")))
     = [EmbeddingsCreate
          (JObj [prop "model" (lit "text-embedding-3-small");
                 prop "input" (lit "x = 2")]);
        InsertSelectId (str "kb_chunks") row]
     /\ (get_opt row "type" = lit "completion_good"
         <-> lit "success" = lit "success")
     /\ (lit "success" <> lit "success" ->
         get_opt row "type" = lit "completion_bad"))
  /\ log_completion_result sample_services (sample_completion (JBool false))
     = ([], Returns (error_response 400 "Missing required fields")).
Proof.
  split.
  - apply (proj1 log_completion_type sample_services
             (sample_completion (lit "success")) eq_refl eq_refl eq_refl
             eq_refl [JArr [num 1; num 0]]).
    reflexivity.
  - apply (proj2 log_completion_type sample_services
             (sample_completion (JBool false))); [discriminate ..|].
    reflexivity.
Defined.

(** C4, as it is claimed, fails: the ambiguous [outcome] "maybe" passes the
    check and is stored as [completion_bad] with a 200 response, and the
    falsy [outcome] [false] stores no record at all. *)
Lemma log_completion_ambiguous_outcome_stored :
  (snd (log_completion_result sample_services (sample_completion (lit "maybe")))
   = Returns {| status := 200;
                payload := JObj [prop "success" (JBool true);
                                 prop "id" (num 7)] |}
   /\ exists row,
        In (InsertSelectId (str "kb_chunks") row)
          (fst (log_completion_result sample_services
                  (sample_completion (lit "maybe"))))
        /\ get_opt row "type" = lit "completion_bad")
  /\ log_completion_result sample_services (sample_completion (JBool false))
     = ([], Returns (error_response 400 "Missing required fields")).
Proof.
  split; [split|]; [reflexivity | | reflexivity].
  eexists. split; [right; left; reflexivity | reflexivity].
Qed.

(** C10: the row that a valid request stores has [model_answer] itself as
    its [content], 0 as its [chunk_index], and carries [original_prompt],
    [model_answer], [outcome], [score] and [teacher_feedback] of the request
    as fields of their own. *)
Theorem log_completion_row :
  forall (env : Services) (body : JsValue),
    truthy (get_opt body "course") = true ->
    truthy (get_opt body "assignment_type") = true ->
    truthy (get_opt body "model_answer") = true ->
    truthy (get_opt body "outcome") = true ->
    forall embeddings,
      snd (embedText env (get_opt body "model_answer")) = Returns embeddings ->
      exists row,
        fst (log_completion_result env body)
        = [EmbeddingsCreate
             (JObj [prop "model" (lit "text-embedding-3-small");
                    prop "input" (get_opt body "model_answer")]);
           InsertSelectId (str "kb_chunks") row]
        /\ get_opt row "content" = get_opt body "model_answer"
        /\ get_opt row "chunk_index" = num 0
        /\ get_opt row "original_prompt" = get_opt body "original_prompt"
        /\ get_opt row "model_answer" = get_opt body "model_answer"
        /\ get_opt row "outcome" = get_opt body "outcome"
        /\ get_opt row "score" = get_opt body "score"
        /\ get_opt row "teacher_feedback" = get_opt body "teacher_feedback".
Proof.
  intros env body Hc Ha Hm Ho embeddings Hemb.
  eexists. split;
    [apply (log_completion_result_calls env body Hc Ha Hm Ho _ Hemb)|].
  repeat split; reflexivity.
Qed.

Lemma log_completion_row_witness :
  exists row,
    fst (log_completion_result sample_services
           (sample_completion (lit "success")))
    = [EmbeddingsCreate
         (JObj [prop "model" (lit "text-embedding-3-small");
                prop "input" (lit "x = 2")]);
       InsertSelectId (str "kb_chunks") row]
    /\ get_opt row "content" = lit "x = 2"
    /\ get_opt row "chunk_index" = num 0
    /\ get_opt row "original_prompt" = JUndefined
    /\ get_opt row "model_answer" = lit "x = 2"
    /\ get_opt row "outcome" = lit "success"
    /\ get_opt row "score" = num 9
    /\ get_opt row "teacher_feedback" = JUndefined.
Proof.
  apply (log_completion_row sample_services
           (sample_completion (lit "success")) eq_refl eq_refl eq_refl
           eq_refl [JArr [num 1; num 0]]).
  reflexivity.
Defined.

(** ** /search_content *)

(** A request with a query, whose query gets embedded, makes two calls: the
    embedding of the query and the [match_kb_chunks] call. *)
Lemma search_content_calls (env : Services) (body : JsValue) :
  truthy (get_opt body "query") = true ->
  forall embeddings,
    snd (embedText env (get_opt body "query")) = Returns embeddings ->
    fst (search_content env body)
    = [EmbeddingsCreate
         (JObj [prop "model" (lit "text-embedding-3-small");
                prop "input" (get_opt body "query")]);
       Rpc (str "match_kb_chunks")
         (search_args (hd JUndefined embeddings)
            (get_opt body "course") (get_opt body "types")
            (get_opt body "subtopic") (get_opt body "assignment_type")
            (with_default (get_opt body "top_k") (num 8))
            (with_default (get_opt body "threshold") (JNum (7 # 10))))].
Proof.
  intros Hq embeddings Hemb.
  unfold search_content. rewrite try_catch_calls.
  rewrite !(get_truthy body _ Hq), !bind_lift_returns.
  rewrite Hq. cbn [negb].
  rewrite bind_calls, embedText_calls, Hemb.
  rewrite bind_calls. unfold await at 1. cbn [fst snd app].
  do 2 f_equal.
  destruct (rpc env _ _) as [result|]; [|reflexivity].
  unfold await. cbn [snd].
  destruct (get result "data") as [data| |]; try reflexivity.
  rewrite bind_lift_returns.
  destruct (get result "error") as [error| |]; try reflexivity.
  rewrite bind_lift_returns.
  destruct (truthy error); reflexivity.
Qed.

Lemma with_default_defined (v d : JsValue) :
  v <> JUndefined -> with_default v d = v.
Proof. destruct v; congruence || reflexivity. Qed.

(** C5: a search request with a query makes one [match_kb_chunks] call, in
    which [match_limit] is the [top_k] of the request, or 8 when it is
    absent, [match_threshold] is its [threshold], or 0.7 when it is absent,
    and the filter of every absent [course], [types], [subtopic] and
    [assignment_type] is [null]. *)
Theorem search_content_arguments :
  forall (env : Services) (body : JsValue),
    truthy (get_opt body "query") = true ->
    forall embeddings,
      snd (embedText env (get_opt body "query")) = Returns embeddings ->
      exists args,
        fst (search_content env body)
        = [EmbeddingsCreate
             (JObj [prop "model" (lit "text-embedding-3-small");
                    prop "input" (get_opt body "query")]);
           Rpc (str "match_kb_chunks") args]
        /\ (get_opt body "top_k" <> JUndefined ->
            get_opt args "match_limit" = get_opt body "top_k")
        /\ (get_opt body "top_k" = JUndefined ->
            get_opt args "match_limit" = num 8)
        /\ (get_opt body "threshold" <> JUndefined ->
            get_opt args "match_threshold" = get_opt body "threshold")
        /\ (get_opt body "threshold" = JUndefined ->
            get_opt args "match_threshold" = JNum (7 # 10))
        /\ (get_opt body "course" = JUndefined ->
            get_opt args "match_course" = JNull)
        /\ (get_opt body "types" = JUndefined ->
            get_opt args "match_types" = JNull)
        /\ (get_opt body "subtopic" = JUndefined ->
            get_opt args "match_subtopic" = JNull)
        /\ (get_opt body "assignment_type" = JUndefined ->
            get_opt args "match_assignment_type" = JNull).
Proof.
  intros env body Hq embeddings Hemb.
  eexists. split; [apply (search_content_calls env body Hq _ Hemb)|].
  change (get_opt (search_args ?e ?c ?t ?s ?a ?k ?h) "match_limit") with k.
  change (get_opt (search_args ?e ?c ?t ?s ?a ?k ?h) "match_threshold") with h.
  change (get_opt (search_args ?e ?c ?t ?s ?a ?k ?h) "match_course")
    with (js_or c JNull).
  change (get_opt (search_args ?e ?c ?t ?s ?a ?k ?h) "match_types")
    with (if truthy (get_opt t "length") then t else JNull).
  change (get_opt (search_args ?e ?c ?t ?s ?a ?k ?h) "match_subtopic")
    with (js_or s JNull).
  change (get_opt (search_args ?e ?c ?t ?s ?a ?k ?h) "match_assignment_type")
    with (js_or a JNull).
  repeat split.
  - apply with_default_defined.
  - intros ->. reflexivity.
  - apply with_default_defined.
  - intros ->. reflexivity.
  - intros ->. reflexivity.
  - intros ->. reflexivity.
  - intros ->. reflexivity.
  - intros ->. reflexivity.
Qed.

Lemma search_content_arguments_witness :
  exists args,
    fst (search_content sample_services (JObj [prop "query" (lit "groups")]))
    = [EmbeddingsCreate
         (JObj [prop "model" (lit "text-embedding-3-small");
                prop "input" (lit "groups")]);
       Rpc (str "match_kb_chunks") args]
    /\ (JUndefined <> JUndefined -> get_opt args "match_limit" = JUndefined)
    /\ (JUndefined = JUndefined -> get_opt args "match_limit" = num 8)
    /\ (JUndefined <> JUndefined ->
        get_opt args "match_threshold" = JUndefined)
    /\ (JUndefined = JUndefined ->
        get_opt args "match_threshold" = JNum (7 # 10))
    /\ (JUndefined = JUndefined -> get_opt args "match_course" = JNull)
    /\ (JUndefined = JUndefined -> get_opt args "match_types" = JNull)
    /\ (JUndefined = JUndefined -> get_opt args "match_subtopic" = JNull)
    /\ (JUndefined = JUndefined ->
        get_opt args "match_assignment_type" = JNull).
Proof.
  apply (search_content_arguments sample_services
           (JObj [prop "query" (lit "groups")]) eq_refl
           [JArr [num 1; num 0]]).
  reflexivity.
Defined.

(** C9: in a search request, an empty [types] array and an empty [course],
    [subtopic] or [assignment_type] string reach the store as [null], and
    the handler does with such a request exactly what it does with the
    request that leaves the filter out. *)
Theorem search_content_degenerate_filters :
  forall (env : Services) (props : list (JsString * JsValue)),
    (lookup (str "types") props = JArr [] ->
     search_content env (JObj props)
     = search_content env (JObj (remove_prop "types" props)))
    /\ (lookup (str "course") props = JStr [] ->
        search_content env (JObj props)
        = search_content env (JObj (remove_prop "course" props)))
    /\ (lookup (str "subtopic") props = JStr [] ->
        search_content env (JObj props)
        = search_content env (JObj (remove_prop "subtopic" props)))
    /\ (lookup (str "assignment_type") props = JStr [] ->
        search_content env (JObj props)
        = search_content env (JObj (remove_prop "assignment_type" props)))
    /\ (truthy (lookup (str "query") props) = true ->
        forall embeddings,
          snd (embedText env (lookup (str "query") props))
          = Returns embeddings ->
          exists args,
            fst (search_content env (JObj props))
            = [EmbeddingsCreate
                 (JObj [prop "model" (lit "text-embedding-3-small");
                        prop "input" (lookup (str "query") props)]);
               Rpc (str "match_kb_chunks") args]
            /\ (lookup (str "types") props = JArr [] ->
                get_opt args "match_types" = JNull)
            /\ (lookup (str "course") props = JStr [] ->
                get_opt args "match_course" = JNull)
            /\ (lookup (str "subtopic") props = JStr [] ->
                get_opt args "match_subtopic" = JNull)
            /\ (lookup (str "assignment_type") props = JStr [] ->
                get_opt args "match_assignment_type" = JNull)).
Proof.
  intros env props.
  assert (forall name value,
            In (name, value)
               [("types", JArr []); ("course", JStr []);
                ("subtopic", JStr []); ("assignment_type", JStr [])]%string ->
            lookup (str name) props = value ->
            search_content env (JObj props)
            = search_content env (JObj (remove_prop name props))) as Hsame.
  { intros name value Hin H. unfold search_content.
    rewrite !get_object, !lookup_remove_prop, !bind_lift_returns.
    simpl in Hin.
    destruct Hin as [[= <- <-]|[[= <- <-]|[[= <- <-]|[[= <- <-]|[]]]]];
      rewrite H; reflexivity. }
  split; [apply (Hsame "types"%string); simpl; tauto|].
  split; [apply (Hsame "course"%string); simpl; tauto|].
  split; [apply (Hsame "subtopic"%string); simpl; tauto|].
  split; [apply (Hsame "assignment_type"%string); simpl; tauto|].
  intros Hq embeddings Hemb.
  eexists. split;
    [apply (search_content_calls env (JObj props) Hq _ Hemb)|].
  repeat split; intros H.
  - change ((if truthy (get_opt (lookup (str "types") props) "length")
             then lookup (str "types") props else JNull) = JNull).
    rewrite H. reflexivity.
  - change (js_or (lookup (str "course") props) JNull = JNull).
    rewrite H. reflexivity.
  - change (js_or (lookup (str "subtopic") props) JNull = JNull).
    rewrite H. reflexivity.
  - change (js_or (lookup (str "assignment_type") props) JNull = JNull).
    rewrite H. reflexivity.
Qed.

Lemma search_content_degenerate_filters_witness :
  search_content sample_services (JObj sample_search)
  = search_content sample_services (JObj (remove_prop "types" sample_search))
  /\ search_content sample_services (JObj sample_search)
     = search_content sample_services
         (JObj (remove_prop "course" sample_search))
  /\ search_content sample_services (JObj sample_search)
     = search_content sample_services
         (JObj (remove_prop "subtopic" sample_search))
  /\ search_content sample_services (JObj sample_search)
     = search_content sample_services
         (JObj (remove_prop "assignment_type" sample_search))
  /\ exists args,
       fst (search_content sample_services (JObj sample_search))
       = [EmbeddingsCreate
            (JObj [prop "model" (lit "text-embedding-3-small");
                   prop "input" (lit "groups")]);
          Rpc (str "match_kb_chunks") args]
       /\ get_opt args "match_types" = JNull
       /\ get_opt args "match_course" = JNull
       /\ get_opt args "match_subtopic" = JNull
       /\ get_opt args "match_assignment_type" = JNull.
Proof.
  destruct (search_content_degenerate_filters sample_services sample_search)
    as (Ht & Hc & Hs & Ha & Hargs).
  split; [apply Ht; reflexivity|].
  split; [apply Hc; reflexivity|].
  split; [apply Hs; reflexivity|].
  split; [apply Ha; reflexivity|].
  destruct (Hargs eq_refl [JArr [num 1; num 0]] eq_refl)
    as (args & Hcalls & H1 & H2 & H3 & H4).
  exists args. split; [exact Hcalls|].
  repeat split; [apply H1 | apply H2 | apply H3 | apply H4]; reflexivity.
Defined.

(** ** /ingest_content *)

(** Every chunk that [chunkText] returns has at least one character. *)
Lemma chunkText_chunks_nonempty (text profile : JsValue)
    (chunks : list JsString) :
  chunkText text profile = Returns chunks -> Forall (fun c => c <> []) chunks.
Proof.
  destruct text as [| | | |s| |]; try discriminate.
  pose proof (words_of_are_words s) as Hwords.
  destruct (Z.leb_spec (Z.of_nat (length (words_of s)))
              (sizeWords (getChunkConfig profile))) as [Hshort|Hlong].
  - rewrite chunkText_string.
    unfold Chunker.chunk_words, Chunker.words_length.
    destruct (Nat.eqb_spec (length (words_of s)) 0) as [E|E].
    + intros [= <-]. constructor.
    + destruct (Z.leb_spec (Z.of_nat (length (words_of s)))
                  (sizeWords (getChunkConfig profile))); [|lia].
      intros [= <-]. constructor; [|constructor].
      apply join_nonempty; [exact Hwords|].
      intros E'. rewrite E' in E. now apply E.
  - destruct (chunkText_long s profile Hlong) as (ws & -> & Hws).
    intros [= <-].
    destruct (getChunkConfig_valid profile) as (Hov & Hcfg & Hsize).
    apply Forall_forall. intros c Hc.
    apply in_map_iff in Hc as ([st e] & <- & Hin).
    apply In_nth_error in Hin as [i Hi].
    destruct (sliding_bounds _ _ _ Hov Hcfg _ _ Hws ltac:(lia) ltac:(lia)
                _ _ _ Hi) as (H0 & Hse & He).
    apply join_nonempty; [apply slice_Forall, Hwords|].
    apply slice_nonempty; assumption.
Qed.

Lemma mapi_from_rows
    (course type subtopic assignment_type source_name : JsValue)
    (embeddings : list JsValue) (chunks : list JsString) :
  Forall (fun c => c <> []) chunks ->
  forall from,
    Forall (fun row => exists c, get_opt row "content" = JStr c /\ c <> [])
      (mapi_from from
         (ingest_row course type subtopic assignment_type source_name
            embeddings)
         chunks).
Proof.
  induction 1 as [|c chunks Hc _ IH]; intros from; simpl; constructor.
  - exists c. split; [reflexivity | exact Hc].
  - apply IH.
Qed.

(** The calls of an ingestion: none, or the embedding alone, or the
    embedding of the chunks followed by the insertion of their rows. *)
Lemma ingest_content_calls (env : Services) (body : JsValue) :
  fst (ingest_content env body) = []
  \/ (exists input, fst (ingest_content env body) = [EmbeddingsCreate input])
  \/ (exists chunks embeddings,
        chunkText (get_opt body "raw_text")
          (with_default (get_opt body "chunk_profile") (lit "default"))
        = Returns chunks
        /\ chunks <> []
        /\ fst (ingest_content env body)
           = [EmbeddingsCreate
                (JObj [prop "model" (lit "text-embedding-3-small");
                       prop "input" (JArr (map JStr chunks))]);
              InsertSelectId (str "kb_chunks")
                (JArr (mapi_from 0
                         (ingest_row (get_opt body "course")
                            (get_opt body "type") (get_opt body "subtopic")
                            (get_opt body "assignment_type")
                            (get_opt body "source_name") embeddings)
                         chunks))]).
Proof.
  unfold ingest_content. rewrite try_catch_calls.
  destruct (get body "course") as [c| |] eqn:Hget; [|left; reflexivity ..].
  assert (body <> JUndefined) as Hu by (intros ->; discriminate).
  assert (body <> JNull) as Hn by (intros ->; discriminate).
  rewrite <- Hget. clear Hget.
  rewrite !(get_defined body _ Hu Hn), !bind_lift_returns.
  destruct (_ || _); [left; reflexivity|].
  destruct (chunkText _ _) as [chunks| |] eqn:Hchunks; [|left; reflexivity ..].
  rewrite bind_lift_returns.
  destruct chunks as [|chunk chunks]; [left; reflexivity|].
  cbn [length Nat.eqb].
  rewrite bind_calls, embedText_calls.
  destruct (snd (embedText env _)) as [embeddings| |];
    [|right; left; eexists; reflexivity ..].
  right; right. exists (chunk :: chunks), embeddings.
  split; [reflexivity|]. split; [discriminate|].
  rewrite bind_calls. unfold await at 1. cbn [fst snd app].
  do 2 f_equal.
  destruct (insert_select_id env _ _) as [result|]; [|reflexivity].
  unfold await. cbn [snd].
  destruct (get result "data") as [data| |]; try reflexivity.
  rewrite bind_lift_returns.
  destruct (get result "error") as [error| |]; try reflexivity.
  rewrite bind_lift_returns.
  destruct (truthy error); [reflexivity|].
  destruct (map_get data "id"); reflexivity.
Qed.

(** C6: [chunkText] returns no chunk for a text made of white space only
    (the empty text included); an ingestion request whose required fields
    are there but whose [raw_text] gives no chunk is answered with status
    400 and the error [No content produced] without any call to the
    embedding provider or to the store; and whenever an ingestion does
    insert rows, there is at least one row and the [content] of every row
    is a string with at least one character. *)
Theorem ingest_content_no_empty_record :
  (forall (text : JsString) (profile : JsValue),
     forallb is_space text = true ->
     chunkText (JStr text) profile = Returns [])
  /\ (forall (env : Services) (body : JsValue),
        truthy (get_opt body "raw_text") = true ->
        truthy (get_opt body "course") = true ->
        truthy (get_opt body "type") = true ->
        chunkText (get_opt body "raw_text")
          (with_default (get_opt body "chunk_profile") (lit "default"))
        = Returns [] ->
        ingest_content env body
        = ([], Returns (error_response 400 "No content produced")))
  /\ (forall (env : Services) (body : JsValue) table rows,
        In (InsertSelectId table rows) (fst (ingest_content env body)) ->
        exists rs,
          rows = JArr rs /\ rs <> []
          /\ Forall (fun row =>
                       exists c, get_opt row "content" = JStr c /\ c <> [])
               rs).
Proof.
  split; [|split].
  - intros text profile Hblank. rewrite chunkText_string.
    rewrite (words_of_blank text Hblank). reflexivity.
  - intros env body Hr Hc Ht Hchunks. unfold ingest_content.
    rewrite !(get_truthy body _ Hr), !bind_lift_returns.
    rewrite Hr, Hc, Ht. cbn [negb orb].
    rewrite Hchunks, bind_lift_returns. reflexivity.
  - intros env body table rows Hin.
    destruct (ingest_content_calls env body)
      as [E | [[input E] | (chunks & embeddings & Hchunks & Hne & E)]];
      rewrite E in Hin; simpl in Hin.
    + contradiction.
    + destruct Hin as [[=]|[]].
    + destruct Hin as [[=]|[[= <- <-]|[]]].
      eexists. split; [reflexivity|]. split.
      * destruct chunks; [congruence | discriminate].
      * apply mapi_from_rows.
        apply (chunkText_chunks_nonempty _ _ _ Hchunks).
Qed.

Lemma ingest_content_no_empty_record_witness :
  chunkText (JStr (str "  ")) JUndefined = Returns []
  /\ ingest_content sample_services (sample_ingest (lit "  "))
     = ([], Returns (error_response 400 "No content produced"))
  /\ exists rs,
       JArr [ingest_row (lit "algebra") (lit "resource") JUndefined
               JUndefined JUndefined [JArr [num 1; num 0]]
               (str "one two") 0]
       = JArr rs
       /\ rs <> []
       /\ Forall (fun row =>
                    exists c, get_opt row "content" = JStr c /\ c <> [])
            rs.
Proof.
  split; [|split].
  - apply (proj1 ingest_content_no_empty_record (str "  ") JUndefined).
    reflexivity.
  - apply (proj1 (proj2 ingest_content_no_empty_record) sample_services
             (sample_ingest (lit "  "))); reflexivity.
  - apply (proj2 (proj2 ingest_content_no_empty_record) sample_services
             (sample_ingest (lit " one  two ")) (str "kb_chunks")).
    right. left. reflexivity.
Defined.

(** * Further properties of the chunker *)

Lemma chunk_words_terminates (cfg : ChunkConfig) (words : list JsString) :
  overlapWords cfg < sizeWords cfg ->
  exists chunks,
    Chunker.chunk_words cfg words (S (length words)) = Some chunks.
Proof.
  intros Hcfg. unfold Chunker.chunk_words.
  destruct (length words =? 0)%nat; [eauto|].
  destruct (Chunker.words_length words <=? sizeWords cfg); [eauto|].
  rewrite loop_as_windows. cbn [Chunker.start Chunker.chunks].
  destruct (loop_windows_terminates cfg words (S (length words)) Hcfg 0)
    as [ws ->]; [unfold Chunker.words_length; lia|].
  simpl. eauto.
Qed.

Lemma chunkText_returns (text : JsString) (profile : JsValue) :
  exists chunks, chunkText (JStr text) profile = Returns chunks.
Proof.
  rewrite chunkText_string.
  destruct (getChunkConfig_valid profile) as (_ & Hcfg & _).
  destruct (chunk_words_terminates _ (words_of text) Hcfg) as [chunks ->].
  eauto.
Qed.

Lemma chunkText_no_words (text : JsString) (profile : JsValue) :
  words_of text = [] -> chunkText (JStr text) profile = Returns [].
Proof.
  intros H. rewrite chunkText_string, H. reflexivity.
Qed.

Lemma chunkText_short (text : JsString) (profile : JsValue) :
  words_of text <> [] ->
  Z.of_nat (length (words_of text)) <= sizeWords (getChunkConfig profile) ->
  chunkText (JStr text) profile = Returns [join (words_of text)].
Proof.
  intros Hne Hshort. rewrite chunkText_string.
  unfold Chunker.chunk_words, Chunker.words_length.
  destruct (Nat.eqb_spec (length (words_of text)) 0) as [E|E].
  - destruct (words_of text); [congruence | discriminate].
  - destruct (Z.leb_spec (Z.of_nat (length (words_of text)))
                (sizeWords (getChunkConfig profile))); [reflexivity | lia].
Qed.

(** The three ways [chunkText] treats a string. *)
Lemma chunkText_cases (text : JsString) (profile : JsValue) :
  (words_of text = [] /\ chunkText (JStr text) profile = Returns [])
  \/ (words_of text <> []
      /\ Z.of_nat (length (words_of text))
         <= sizeWords (getChunkConfig profile)
      /\ chunkText (JStr text) profile = Returns [join (words_of text)])
  \/ (sizeWords (getChunkConfig profile)
      < Z.of_nat (length (words_of text))
      /\ exists ws,
           chunkText (JStr text) profile
           = Returns (map (Chunker.chunk_of (words_of text)) ws)
           /\ sliding_windows (sizeWords (getChunkConfig profile))
                (overlapWords (getChunkConfig profile))
                (Z.of_nat (length (words_of text))) 0 ws).
Proof.
  destruct (words_of text) as [|w ws] eqn:E.
  - left. split; [reflexivity | now apply chunkText_no_words].
  - rewrite <- E.
    destruct (Z_le_gt_dec (Z.of_nat (length (words_of text)))
                (sizeWords (getChunkConfig profile))) as [Hs|Hl].
    + right; left. assert (words_of text <> []) by (rewrite E; discriminate).
      auto using chunkText_short.
    + right; right. split; [lia|]. apply chunkText_long. lia.
Qed.

Section WindowShapes.
Variables size overlap total : Z.
Hypothesis overlap_nonneg : 0 <= overlap.
Hypothesis overlap_small : overlap < size.

#[local] Abbreviation sliding := (sliding_windows size overlap total).

(** The [i]-th window starts [i] steps after the first. *)
Lemma sliding_start start ws :
  sliding start ws ->
  forall i s e, nth_error ws i = Some (s, e) ->
    s = start + Z.of_nat i * (size - overlap).
Proof.
  induction 1 as [s0 E|s0 e0 rest -> Hne Hrest IH]; intros [|i] s e Hi;
    simpl in Hi.
  - injection Hi as <- <-. lia.
  - destruct i; discriminate.
  - injection Hi as <- <-. lia.
  - rewrite (IH _ _ _ Hi). lia.
Qed.

Lemma sliding_count start ws :
  sliding start ws -> start + overlap < total ->
  Z.of_nat (length ws) = (total - start - overlap - 1) / (size - overlap) + 1.
Proof.
  induction 1 as [s0 E|s0 e0 rest -> Hne Hrest IH]; intros Hinv.
  - simpl length. rewrite Z.div_small by lia. reflexivity.
  - assert (Z.min (s0 + size) total = s0 + size) as Emin by lia.
    rewrite Emin in *.
    replace (total - s0 - overlap - 1)
      with ((total - (s0 + size - overlap) - overlap - 1)
            + 1 * (size - overlap)) by lia.
    rewrite Z.div_add by lia. rewrite <- IH by lia.
    simpl length. lia.
Qed.

(** A window that is not the last one is full; the last one has more words
    than the overlap, so it brings at least one new word. *)
Lemma sliding_sizes start ws :
  sliding start ws -> 0 <= start -> start + overlap < total ->
  forall i s e, nth_error ws i = Some (s, e) ->
    0 <= s /\ e <= total /\ overlap < e - s /\ e - s <= size
    /\ ((S i < length ws)%nat -> e - s = size).
Proof.
  induction 1 as [s0 E|s0 e0 rest -> Hne Hrest IH];
    intros H0 Hinv [|i] s e Hi; simpl in Hi.
  - injection Hi as <- <-. simpl. lia.
  - destruct i; discriminate.
  - injection Hi as <- <-. simpl. lia.
  - destruct (IH ltac:(lia) ltac:(lia) _ _ _ Hi) as (? & ? & ? & ? & Hfull).
    simpl. repeat split; try assumption. intros Hlt. apply Hfull. lia.
Qed.
End WindowShapes.

Section SliceJoins.
Context {A : Type}.
Implicit Types l : list A.

Lemma slice_whole l : slice l 0 (Z.of_nat (length l)) = l.
Proof.
  rewrite slice_inside by lia. simpl.
  rewrite Z.sub_0_r, Nat2Z.id. apply firstn_all.
Qed.

Lemma slice_app l (a b c : Z) :
  0 <= a -> a <= b -> b <= c -> c <= Z.of_nat (length l) ->
  slice l a b ++ slice l b c = slice l a c.
Proof.
  intros Ha Hb Hc Hl.
  rewrite <- (slice_firstn l a b c) by lia.
  rewrite <- (slice_skipn l a b c) by lia.
  apply firstn_skipn.
Qed.
End SliceJoins.

(** What every chunk of a text is: the [i]-th chunk is the join of the
    words of the [i]-th window, which starts [i] steps of
    [sizeWords - overlapWords] words into the text. *)
Lemma chunkText_chunk_structure (text : JsString) (profile : JsValue)
    (chunks : list JsString) :
  chunkText (JStr text) profile = Returns chunks ->
  forall i c, nth_error chunks i = Some c ->
    exists s e,
      c = join (slice (words_of text) s e)
      /\ s = Z.of_nat i * (sizeWords (getChunkConfig profile)
                           - overlapWords (getChunkConfig profile))
      /\ e = Z.min (s + sizeWords (getChunkConfig profile))
               (Z.of_nat (length (words_of text)))
      /\ 0 <= s /\ s < e /\ e <= Z.of_nat (length (words_of text))
      /\ e - s <= sizeWords (getChunkConfig profile)
      /\ ((S i < length chunks)%nat ->
          e - s = sizeWords (getChunkConfig profile))
      /\ ((0 < i)%nat -> overlapWords (getChunkConfig profile) < e - s).
Proof.
  intros Hres i c Hi.
  destruct (getChunkConfig_valid profile) as (Hov & Hcfg & Hsize).
  destruct (chunkText_cases text profile)
    as [[_ E] | [(Hne & Hshort & E) | (Hlong & ws & E & Hws)]];
    rewrite E in Hres; injection Hres as <-.
  - destruct i; discriminate.
  - destruct i as [|i]; [|destruct i; discriminate].
    injection Hi as <-.
    assert (0 < Z.of_nat (length (words_of text))).
    { destruct (words_of text); [congruence | simpl; lia]. }
    exists 0, (Z.of_nat (length (words_of text))).
    rewrite slice_whole. simpl length. repeat split; lia.
  - rewrite nth_error_map in Hi.
    destruct (nth_error ws i) as [[s e]|] eqn:Hw; [|discriminate].
    injection Hi as <-. exists s, e.
    pose proof (sliding_start _ _ _ _ _ Hws _ _ _ Hw) as Hs.
    pose proof (sliding_end _ _ _ _ _ Hws _ _ _ Hw) as He.
    destruct (sliding_sizes _ _ _ Hcfg _ _ Hws ltac:(lia) ltac:(lia)
                _ _ _ Hw) as (H0 & Het & Hgt & Hle & Hfull).
    rewrite length_map.
    repeat split; try assumption; try lia.
Qed.

Lemma chunk_words_back (text : JsString) (s e : Z) :
  words_of (join (slice (words_of text) s e)) = slice (words_of text) s e.
Proof. apply words_of_join, slice_Forall, words_of_are_words. Qed.

(** X1: on a text with more words than [sizeWords], the chunks are given in
    closed form: there are [(total - overlapWords - 1) / step + 1] of them,
    where [step = sizeWords - overlapWords], and the [i]-th one is the join
    of the words from [i * step] up to [min (i * step + sizeWords) total]. *)
Theorem chunkText_closed_form :
  forall (text : JsString) (profile : JsValue),
    let cfg := getChunkConfig profile in
    let words := words_of text in
    let total := Z.of_nat (length words) in
    let step := sizeWords cfg - overlapWords cfg in
    sizeWords cfg < total ->
    chunkText (JStr text) profile
    = Returns
        (map (fun i : nat =>
                join (slice words (Z.of_nat i * step)
                        (Z.min (Z.of_nat i * step + sizeWords cfg) total)))
           (seq 0 (Z.to_nat ((total - overlapWords cfg - 1) / step + 1)))).
Proof.
  intros text profile cfg words total step Hlong.
  destruct (getChunkConfig_valid profile) as (Hov & Hcfg & Hsize).
  destruct (chunkText_long text profile Hlong) as (ws & Hres & Hws).
  fold cfg words total in Hov, Hcfg, Hsize, Hws.
  pose proof (sliding_count _ _ _ Hcfg _ _ Hws ltac:(lia)) as Hcount.
  rewrite Z.sub_0_r in Hcount. fold step in Hcount. rewrite <- Hcount, Nat2Z.id.
  rewrite Hres. f_equal. apply nth_error_ext. intros n.
  rewrite !nth_error_map, nth_error_seq.
  destruct (Nat.ltb_spec n (length ws)) as [Hn|Hn].
  - destruct (nth_error ws n) as [[s e]|] eqn:Hw;
      [|apply nth_error_None in Hw; lia].
    simpl. f_equal. unfold Chunker.chunk_of. simpl fst. simpl snd.
    pose proof (sliding_start _ _ _ _ _ Hws _ _ _ Hw) as Hs.
    pose proof (sliding_end _ _ _ _ _ Hws _ _ _ Hw) as He.
    fold step in Hs. rewrite Z.add_0_l in Hs. rewrite He, Hs. reflexivity.
  - apply nth_error_None in Hn. rewrite Hn. reflexivity.
Qed.

Lemma chunkText_closed_form_witness :
  chunkText (JStr (sample_text 1000)) (lit "short_form")
  = Returns
      (map (fun i : nat =>
              join (slice (words_of (sample_text 1000))
                      (Z.of_nat i * (400 - 60))
                      (Z.min (Z.of_nat i * (400 - 60) + 400) 1000)))
         (seq 0 3)).
Proof.
  apply (chunkText_closed_form (sample_text 1000) (lit "short_form")).
  vm_compute. reflexivity.
Defined.

(** X2: every chunk that [chunkText] returns has at least one word and at
    most [sizeWords] words; every chunk but the last has exactly
    [sizeWords] words; and every chunk after the first has more than
    [overlapWords] words, so it brings at least one word that the chunk
    before it does not have. *)
Theorem chunkText_chunk_sizes :
  forall (text : JsString) (profile : JsValue) (chunks : list JsString)
         (i : nat) (c : JsString),
    chunkText (JStr text) profile = Returns chunks ->
    nth_error chunks i = Some c ->
    let n := Z.of_nat (length (words_of c)) in
    1 <= n /\ n <= sizeWords (getChunkConfig profile)
    /\ ((S i < length chunks)%nat -> n = sizeWords (getChunkConfig profile))
    /\ ((0 < i)%nat -> overlapWords (getChunkConfig profile) < n).
Proof.
  intros text profile chunks i c Hres Hi n.
  destruct (chunkText_chunk_structure text profile chunks Hres i c Hi)
    as (s & e & -> & _ & _ & H0 & Hse & He & Hle & Hfull & Hgt).
  subst n. rewrite chunk_words_back, slice_length by lia.
  rewrite Z2Nat.id by lia. repeat split; lia.
Qed.

Lemma chunkText_chunk_sizes_witness :
  let c := join (slice (words_of (sample_text 1000)) 340 740) in
  let n := Z.of_nat (length (words_of c)) in
  1 <= n /\ n <= 400 /\ n = 400 /\ 60 < n.
Proof.
  intros c n.
  destruct (chunkText_chunk_sizes (sample_text 1000) (lit "short_form")
              [join (slice (words_of (sample_text 1000)) 0 400); c;
               join (slice (words_of (sample_text 1000)) 680 1000)]
              1%nat c)
    as (H1 & H2 & H3 & H4).
  - vm_compute. reflexivity.
  - reflexivity.
  - split; [exact H1|]. split; [exact H2|].
    split; [apply H3; simpl; lia | apply H4; lia].
Defined.

(** X3: chunking a chunk again, under the same profile, gives that chunk
    back as the only chunk. *)
Theorem chunkText_rechunk :
  forall (text : JsString) (profile : JsValue) (chunks : list JsString)
         (c : JsString),
    chunkText (JStr text) profile = Returns chunks ->
    In c chunks ->
    chunkText (JStr c) profile = Returns [c].
Proof.
  intros text profile chunks c Hres Hin.
  apply In_nth_error in Hin as [i Hi].
  destruct (chunkText_chunk_structure text profile chunks Hres i c Hi)
    as (s & e & -> & _ & _ & H0 & Hse & He & Hle & _).
  rewrite <- (chunk_words_back text s e) at 2.
  apply chunkText_short; rewrite chunk_words_back.
  - apply slice_nonempty; lia.
  - rewrite slice_length by lia. lia.
Qed.

Lemma chunkText_rechunk_witness :
  chunkText (JStr (join (slice (words_of (sample_text 1000)) 340 740)))
    (lit "short_form")
  = Returns [join (slice (words_of (sample_text 1000)) 340 740)].
Proof.
  apply (chunkText_rechunk (sample_text 1000) (lit "short_form")
           [join (slice (words_of (sample_text 1000)) 0 400);
            join (slice (words_of (sample_text 1000)) 340 740);
            join (slice (words_of (sample_text 1000)) 680 1000)]).
  - vm_compute. reflexivity.
  - right. left. reflexivity.
Defined.

(** The words that the later windows add, one after the other, are the
    words of the text from the end of the first overlap on. *)
Lemma sliding_tails (text : JsString) (size overlap start : Z)
    (ws : list (Z * Z)) :
  0 <= overlap -> overlap < size ->
  sliding_windows size overlap (Z.of_nat (length (words_of text))) start ws ->
  0 <= start -> start + overlap <= Z.of_nat (length (words_of text)) ->
  concat (map (fun c => skipn (Z.to_nat overlap) (words_of c))
            (map (Chunker.chunk_of (words_of text)) ws))
  = slice (words_of text) (start + overlap)
      (Z.of_nat (length (words_of text))).
Proof.
  intros Hov Hcfg Hws. induction Hws as [s0 E|s0 e0 rest -> Hne Hrest IH];
    intros H0 Hinv; cbn [map concat]; unfold Chunker.chunk_of at 1;
    cbn [fst snd]; rewrite chunk_words_back.
  - rewrite app_nil_r.
    replace (Z.to_nat overlap) with (Z.to_nat (s0 + overlap - s0)) by lia.
    apply slice_skipn; lia.
  - assert (Z.min (s0 + size) (Z.of_nat (length (words_of text)))
            = s0 + size) as Emin by lia.
    rewrite Emin in *. rewrite IH by lia.
    replace (Z.to_nat overlap) with (Z.to_nat (s0 + overlap - s0)) by lia.
    rewrite slice_skipn by lia.
    replace (s0 + size - overlap + overlap) with (s0 + size) by lia.
    apply slice_app; lia.
Qed.

(** X4: nothing is lost or reordered: the words of the first chunk,
    followed by the words of every later chunk without its first
    [overlapWords] ones, are exactly the words of the text. *)
Theorem chunkText_reassemble :
  forall (text : JsString) (profile : JsValue) (chunks : list JsString),
    chunkText (JStr text) profile = Returns chunks ->
    reassemble (overlapWords (getChunkConfig profile)) chunks
    = words_of text.
Proof.
  intros text profile chunks Hres.
  destruct (getChunkConfig_valid profile) as (Hov & Hcfg & Hsize).
  destruct (chunkText_cases text profile)
    as [[Hnil E] | [(Hne & Hshort & E) | (Hlong & ws & E & Hws)]];
    rewrite E in Hres; injection Hres as <-.
  - now rewrite Hnil.
  - simpl. rewrite app_nil_r. apply words_of_join, words_of_are_words.
  - inversion Hws as [s0 E0|s0 e0 rest He Hne Hrest]; subst; [lia|].
    assert (Z.min (0 + sizeWords (getChunkConfig profile))
              (Z.of_nat (length (words_of text)))
            = sizeWords (getChunkConfig profile)) as Emin by lia.
    rewrite Emin in *. simpl map. unfold reassemble.
    rewrite (sliding_tails text _ _ _ _ Hov Hcfg Hrest) by lia.
    unfold Chunker.chunk_of at 1. simpl fst. simpl snd.
    rewrite chunk_words_back.
    replace (sizeWords (getChunkConfig profile)
             - overlapWords (getChunkConfig profile)
             + overlapWords (getChunkConfig profile))
      with (sizeWords (getChunkConfig profile)) by lia.
    rewrite slice_app by lia. apply slice_whole.
Qed.

Lemma chunkText_reassemble_witness :
  reassemble 60
    [join (slice (words_of (sample_text 1000)) 0 400);
     join (slice (words_of (sample_text 1000)) 340 740);
     join (slice (words_of (sample_text 1000)) 680 1000)]
  = words_of (sample_text 1000).
Proof.
  apply (chunkText_reassemble (sample_text 1000) (lit "short_form")).
  vm_compute. reflexivity.
Defined.

Lemma spec_words_nil (s : JsString) :
  forall cur, spec_words cur s = [] -> cur = [] /\ forallb is_space s = true.
Proof.
  induction s as [|c rest IH]; intros cur H; simpl in *.
  - destruct cur; [auto | discriminate].
  - destruct (is_space c).
    + destruct cur; simpl in H; [|discriminate].
      split; [reflexivity | apply (IH [] H)].
    + destruct (IH _ H) as [[=] _].
Qed.

(** X5: [chunkText] returns no chunk exactly for the texts made of white
    space only (the empty text included). *)
Theorem chunkText_no_chunks_iff_blank :
  forall (text : JsString) (profile : JsValue),
    chunkText (JStr text) profile = Returns []
    <-> forallb is_space text = true.
Proof.
  intros text profile. split.
  - intros Hres.
    destruct (chunkText_cases text profile)
      as [[Hnil _] | [(_ & _ & E) | (_ & ws & E & Hws)]].
    + rewrite words_of_spec_words in Hnil. apply (spec_words_nil _ _ Hnil).
    + rewrite E in Hres. discriminate.
    + rewrite E in Hres. destruct Hws; discriminate.
  - intros Hblank. apply chunkText_no_words, words_of_blank, Hblank.
Qed.

(** X6: [chunkText] does not see how the words are separated: the text and
    its normalized form (single spaces, no space at either end) give the
    same chunks. *)
Theorem chunkText_normalized_text :
  forall (text : JsString) (profile : JsValue),
    chunkText (JStr (normalize text)) profile
    = chunkText (JStr text) profile.
Proof.
  intros text profile. rewrite !chunkText_string.
  unfold normalize. rewrite <- words_of_spec_words.
  rewrite (words_of_join _ (words_of_are_words text)). reflexivity.
Qed.

Lemma spec_words_app (a b : JsString) (c : N) :
  is_space c = true ->
  forall cur,
    spec_words cur (a ++ c :: b) = spec_words cur a ++ spec_words [] b.
Proof.
  intros Hc. induction a as [|x a IH]; intros cur; simpl.
  - rewrite Hc. destruct (nonempty cur); reflexivity.
  - destruct (is_space x).
    + destruct (nonempty cur); simpl; now rewrite IH.
    + apply IH.
Qed.

(** X7: the words of two texts put together with a white-space character
    between them are the words of the first followed by the words of the
    second. *)
Theorem words_of_separated :
  forall (a b : JsString) (c : N),
    is_space c = true ->
    words_of (a ++ c :: b) = words_of a ++ words_of b.
Proof.
  intros a b c Hc. rewrite !words_of_spec_words.
  apply spec_words_app, Hc.
Qed.

Lemma words_of_separated_witness :
  words_of (str "one two" ++ 10%N :: str " three")
  = words_of (str "one two") ++ words_of (str " three").
Proof.
  apply (words_of_separated (str "one two") (str " three") 10%N).
  reflexivity.
Defined.

(** * Further properties of the handlers *)

Lemma bind_pair_returns {A B} (t : list Call) (a : A) (k : A -> Eff B) :
  bind ((t, Returns a) : Eff A) k = (t ++ fst (k a), snd (k a)).
Proof. simpl. destruct (k a). reflexivity. Qed.

Lemma embedText_pair (env : Services) (input : JsValue) :
  embedText env input
  = ([EmbeddingsCreate
        (JObj [prop "model" (lit "text-embedding-3-small");
               prop "input" input])],
     snd (embedText env input)).
Proof.
  rewrite <- (embedText_calls env input).
  now destruct (embedText env input).
Qed.

Lemma get_not_diverges (v : JsValue) (m : string) : get v m <> Diverges.
Proof.
  destruct v; simpl; try discriminate; destruct (String.eqb m "length");
    discriminate.
Qed.

Lemma map_outcome_not_diverges {A B} (f : A -> Outcome B) (l : list A) :
  (forall x, f x <> Diverges) -> map_outcome f l <> Diverges.
Proof.
  intros Hf. induction l as [|x l IH]; [discriminate|].
  simpl. specialize (Hf x). destruct (f x); [|discriminate | congruence].
  destruct (map_outcome f l); [discriminate | discriminate | congruence].
Qed.

Lemma embedText_not_diverges (env : Services) (input : JsValue) :
  snd (embedText env input) <> Diverges.
Proof.
  unfold embedText, await.
  destruct (embeddings_create env _) as [response|]; [|discriminate].
  rewrite bind_pair_returns. cbn [snd].
  destruct (get response "data") as [data| |] eqn:Hd.
  - rewrite bind_lift_returns. unfold lift. cbn [snd].
    unfold map_get. destruct data; try discriminate.
    apply map_outcome_not_diverges. intros x. apply get_not_diverges.
  - discriminate.
  - now apply get_not_diverges in Hd.
Qed.

Lemma nullish_or_defined (body : JsValue) :
  (forall m, get body m = Throws)
  \/ (forall m, get body m = Returns (get_opt body m)).
Proof.
  destruct body; try (left; reflexivity); right; intros m;
    unfold get_opt; simpl; try reflexivity;
    destruct (String.eqb m "length"); reflexivity.
Qed.


(** X10: what /search_content can do: answer 400 or 500 without any call;
    answer 500 after the embedding call alone; or make the embedding call
    and then one [match_kb_chunks] call and answer 500 with one of two
    fixed messages, or 200 with [success] and [results]. *)
Theorem search_content_outcomes :
  forall (env : Services) (body : JsValue),
    search_content env body
    = ([], Returns (error_response 400 "Missing query text"))
    \/ search_content env body
       = ([], Returns (error_response 500 "Internal error"))
    \/ (exists input,
          search_content env body
          = ([EmbeddingsCreate input],
             Returns (error_response 500 "Internal error")))
    \/ (exists input args r,
          search_content env body
          = ([EmbeddingsCreate input; Rpc (str "match_kb_chunks") args],
             Returns r)
          /\ (r = error_response 500 "Internal error"
              \/ r = error_response 500 "Search failed"
              \/ exists results,
                   r = {| status := 200;
                          payload := JObj [prop "success" (JBool true);
                                           prop "results" results] |})).
Proof.
  intros env body. unfold search_content.
  destruct (nullish_or_defined body) as [Hnull|Hdef].
  { right; left. rewrite Hnull. reflexivity. }
  rewrite !Hdef, !bind_lift_returns.
  destruct (truthy (get_opt body "query")); [|left; reflexivity].
  cbn [negb]. right; right.
  rewrite embedText_pair.
  destruct (snd (embedText env _)) as [embeddings| |] eqn:Hemb.
  2:{ left. eexists. reflexivity. }
  2:{ now apply embedText_not_diverges in Hemb. }
  right. rewrite bind_pair_returns. unfold await.
  destruct (rpc env _ _) as [result|].
  2:{ do 3 eexists. split; [reflexivity | left; reflexivity]. }
  rewrite bind_pair_returns.
  destruct (get result "data") as [data| |] eqn:Hdata.
  3:{ now apply get_not_diverges in Hdata. }
  2:{ do 3 eexists. split; [reflexivity | left; reflexivity]. }
  rewrite bind_lift_returns.
  destruct (get result "error") as [error| |] eqn:Herr.
  3:{ now apply get_not_diverges in Herr. }
  2:{ do 3 eexists. split; [reflexivity | left; reflexivity]. }
  rewrite bind_lift_returns.
  destruct (truthy error).
  - do 3 eexists. split; [reflexivity | right; left; reflexivity].
  - do 3 eexists. split; [reflexivity | right; right; eexists; reflexivity].
Qed.

Lemma chunkText_not_diverges (text profile : JsValue) :
  chunkText text profile <> Diverges.
Proof.
  destruct text as [| | | |s| |]; try discriminate.
  destruct (chunkText_returns s profile) as [chunks ->]. discriminate.
Qed.

Lemma map_get_not_diverges (v : JsValue) (m : string) :
  map_get v m <> Diverges.
Proof.
  destruct v; try discriminate. simpl.
  apply map_outcome_not_diverges. intros x. apply get_not_diverges.
Qed.

Lemma get_first_not_diverges (v : JsValue) : get_first v <> Diverges.
Proof. destruct v; discriminate. Qed.

Lemma length_mapi_from {A B} (f : A -> Z -> B) (l : list A) :
  forall from, length (mapi_from from f l) = length l.
Proof. induction l as [|x l IH]; intros from; simpl; auto. Qed.

Lemma nth_error_mapi_from {A B} (f : A -> Z -> B) (l : list A) :
  forall from i,
    nth_error (mapi_from from f l) i
    = option_map (fun x => f x (from + Z.of_nat i)) (nth_error l i).
Proof.
  induction l as [|x l IH]; intros from [|i]; try reflexivity.
  - simpl. now rewrite Z.add_0_r.
  - cbn [mapi_from nth_error]. rewrite IH.
    destruct (nth_error l i); [|reflexivity]. simpl. do 2 f_equal. lia.
Qed.

(** X9: what /ingest_content can do: answer 400 or 500 without any call;
    answer 500 after the embedding call alone; or make the embedding call
    and then one insertion into [kb_chunks] and answer 500 with one of two
    fixed messages, or 200 with [success], [chunks_stored] and [ids].  It
    always answers, and an error answer carries no detail of the failure. *)
Theorem ingest_content_outcomes :
  forall (env : Services) (body : JsValue),
    ingest_content env body
    = ([], Returns (error_response 400
                      "Missing required fields: course, type, raw_text"))
    \/ ingest_content env body
       = ([], Returns (error_response 400 "No content produced"))
    \/ ingest_content env body
       = ([], Returns (error_response 500 "Internal error"))
    \/ (exists input,
          ingest_content env body
          = ([EmbeddingsCreate input],
             Returns (error_response 500 "Internal error")))
    \/ (exists input rows r,
          ingest_content env body
          = ([EmbeddingsCreate input; InsertSelectId (str "kb_chunks") rows],
             Returns r)
          /\ (r = error_response 500 "Internal error"
              \/ r = error_response 500 "Insert failed"
              \/ exists n ids,
                   r = {| status := 200;
                          payload := JObj [prop "success" (JBool true);
                                           prop "chunks_stored" (num n);
                                           prop "ids" (JArr ids)] |})).
Proof.
  intros env body. unfold ingest_content.
  destruct (nullish_or_defined body) as [Hnull|Hdef].
  { right; right; left. rewrite Hnull. reflexivity. }
  rewrite !Hdef, !bind_lift_returns.
  destruct (_ || _); [left; reflexivity|].
  destruct (chunkText _ _) as [chunks| |] eqn:Hchunks.
  3:{ now apply chunkText_not_diverges in Hchunks. }
  2:{ right; right; left. reflexivity. }
  rewrite bind_lift_returns.
  destruct chunks as [|chunk chunks]; [right; left; reflexivity|].
  cbn [length Nat.eqb]. do 3 right.
  rewrite embedText_pair.
  destruct (snd (embedText env _)) as [embeddings| |] eqn:Hemb.
  2:{ left. eexists. reflexivity. }
  2:{ now apply embedText_not_diverges in Hemb. }
  right. rewrite bind_pair_returns. unfold await.
  destruct (insert_select_id env _ _) as [result|].
  2:{ do 3 eexists. split; [reflexivity | left; reflexivity]. }
  rewrite bind_pair_returns.
  destruct (get result "data") as [data| |] eqn:Hdata.
  3:{ now apply get_not_diverges in Hdata. }
  2:{ do 3 eexists. split; [reflexivity | left; reflexivity]. }
  rewrite bind_lift_returns.
  destruct (get result "error") as [error| |] eqn:Herr.
  3:{ now apply get_not_diverges in Herr. }
  2:{ do 3 eexists. split; [reflexivity | left; reflexivity]. }
  rewrite bind_lift_returns.
  destruct (truthy error).
  { do 3 eexists. split; [reflexivity | right; left; reflexivity]. }
  destruct (map_get data "id") as [ids| |] eqn:Hids.
  3:{ now apply map_get_not_diverges in Hids. }
  2:{ do 3 eexists. split; [reflexivity | left; reflexivity]. }
  rewrite bind_lift_returns.
  do 3 eexists. split; [reflexivity|]. right; right. do 2 eexists. reflexivity.
Qed.

(** X11: what /log_completion_result can do: answer 400 or 500 without any
    call; answer 500 after the embedding call alone; or make the embedding
    call and then one insertion into [kb_chunks] and answer 500 with one of
    two fixed messages, or 200 with [success] and [id]. *)
Theorem log_completion_result_outcomes :
  forall (env : Services) (body : JsValue),
    log_completion_result env body
    = ([], Returns (error_response 400 "Missing required fields"))
    \/ log_completion_result env body
       = ([], Returns (error_response 500 "Internal error"))
    \/ (exists input,
          log_completion_result env body
          = ([EmbeddingsCreate input],
             Returns (error_response 500 "Internal error")))
    \/ (exists input row r,
          log_completion_result env body
          = ([EmbeddingsCreate input; InsertSelectId (str "kb_chunks") row],
             Returns r)
          /\ (r = error_response 500 "Internal error"
              \/ r = error_response 500 "Insert failed"
              \/ exists id,
                   r = {| status := 200;
                          payload := JObj [prop "success" (JBool true);
                                           prop "id" id] |})).
Proof.
  intros env body. unfold log_completion_result.
  destruct (nullish_or_defined body) as [Hnull|Hdef].
  { right; left. rewrite Hnull. reflexivity. }
  rewrite !Hdef, !bind_lift_returns.
  destruct (_ || _); [left; reflexivity|].
  do 2 right. rewrite embedText_pair.
  destruct (snd (embedText env _)) as [embeddings| |] eqn:Hemb.
  2:{ left. eexists. reflexivity. }
  2:{ now apply embedText_not_diverges in Hemb. }
  right. rewrite bind_pair_returns. unfold await.
  destruct (insert_select_id env _ _) as [result|].
  2:{ do 3 eexists. split; [reflexivity | left; reflexivity]. }
  rewrite bind_pair_returns.
  destruct (get result "data") as [data| |] eqn:Hdata.
  3:{ now apply get_not_diverges in Hdata. }
  2:{ do 3 eexists. split; [reflexivity | left; reflexivity]. }
  rewrite bind_lift_returns.
  destruct (get result "error") as [error| |] eqn:Herr.
  3:{ now apply get_not_diverges in Herr. }
  2:{ do 3 eexists. split; [reflexivity | left; reflexivity]. }
  rewrite bind_lift_returns.
  destruct (truthy error).
  { do 3 eexists. split; [reflexivity | right; left; reflexivity]. }
  destruct (get_first data) as [first| |] eqn:Hfirst.
  3:{ now apply get_first_not_diverges in Hfirst. }
  2:{ do 3 eexists. split; [reflexivity | left; reflexivity]. }
  rewrite bind_lift_returns.
  do 3 eexists. split; [reflexivity|]. right; right. eexists. reflexivity.
Qed.

Lemma map_outcome_aligned {A B} (f : A -> Outcome B) (l : list A) :
  forall ys, map_outcome f l = Returns ys ->
    length ys = length l
    /\ forall i x, nth_error l i = Some x ->
         exists y, f x = Returns y /\ nth_error ys i = Some y.
Proof.
  induction l as [|x l IH]; intros ys H; simpl in H.
  - injection H as <-. split; [reflexivity|]. intros [|i] ?; discriminate.
  - destruct (f x) as [y| |] eqn:Hx; try discriminate.
    destruct (map_outcome f l) as [ys'| |]; try discriminate.
    injection H as <-. destruct (IH ys' eq_refl) as [Hlen Hnth].
    split; [simpl; now rewrite Hlen|].
    intros [|i] z Hi; simpl in Hi.
    + injection Hi as <-. eauto.
    + apply (Hnth i z Hi).
Qed.

(** X8: when [embedText] returns, the provider has answered with an object
    whose [data] is an array without [null] items, and the result has one
    entry per item, in the same order: the [embedding] property of that
    item. *)
Theorem embedText_aligned :
  forall (env : Services) (input : JsValue) (embeddings : list JsValue),
    snd (embedText env input) = Returns embeddings ->
    exists response items,
      embeddings_create env
        (JObj [prop "model" (lit "text-embedding-3-small");
               prop "input" input])
      = Some response
      /\ get response "data" = Returns (JArr items)
      /\ length embeddings = length items
      /\ forall i item, nth_error items i = Some item ->
           item <> JUndefined /\ item <> JNull
           /\ nth_error embeddings i = Some (get_opt item "embedding").
Proof.
  intros env input embeddings. unfold embedText, await.
  destruct (embeddings_create env _) as [response|]; [|discriminate].
  rewrite bind_pair_returns. cbn [snd].
  destruct (get response "data") as [data| |] eqn:Hd; try discriminate.
  rewrite bind_lift_returns. unfold lift. cbn [snd].
  destruct data; try discriminate. simpl map_get. intros H.
  destruct (map_outcome_aligned _ _ _ H) as [Hlen Hnth].
  exists response, items. repeat split; try assumption; try reflexivity;
    destruct (Hnth i item H0) as (y & Hy & Hi).
  - intros ->. discriminate.
  - intros ->. discriminate.
  - rewrite Hi. unfold get_opt. now rewrite Hy.
Qed.

Lemma embedText_aligned_witness :
  exists response items,
    embeddings_create sample_services
      (JObj [prop "model" (lit "text-embedding-3-small");
             prop "input" (lit "groups")])
    = Some response
    /\ get response "data" = Returns (JArr items)
    /\ length [JArr [num 1; num 0]] = length items
    /\ forall i item, nth_error items i = Some item ->
         item <> JUndefined /\ item <> JNull
         /\ nth_error [JArr [num 1; num 0]] i
            = Some (get_opt item "embedding").
Proof.
  apply (embedText_aligned sample_services (lit "groups")).
  reflexivity.
Defined.

(** X12: whenever /ingest_content inserts rows, the table is [kb_chunks],
    all chunks of the text were embedded in one call that returned, there
    is one row per chunk, and the [i]-th row has [chunk_index] [i], the
    [i]-th chunk as [content], the [i]-th embedding ([undefined] if the
    provider returned fewer) and the metadata of the request. *)
Theorem ingest_content_rows_aligned :
  forall (env : Services) (body : JsValue) table rows,
    In (InsertSelectId table rows) (fst (ingest_content env body)) ->
    exists chunks embeddings rs,
      chunkText (get_opt body "raw_text")
        (with_default (get_opt body "chunk_profile") (lit "default"))
      = Returns chunks
      /\ snd (embedText env (JArr (map JStr chunks))) = Returns embeddings
      /\ table = str "kb_chunks" /\ rows = JArr rs
      /\ length rs = length chunks
      /\ forall i chunk, nth_error chunks i = Some chunk ->
           exists row,
             nth_error rs i = Some row
             /\ get_opt row "chunk_index" = num (Z.of_nat i)
             /\ get_opt row "content" = JStr chunk
             /\ get_opt row "embedding" = nth i embeddings JUndefined
             /\ get_opt row "course" = get_opt body "course"
             /\ get_opt row "type" = get_opt body "type"
             /\ get_opt row "subtopic" = get_opt body "subtopic"
             /\ get_opt row "assignment_type"
                = get_opt body "assignment_type"
             /\ get_opt row "source_name" = get_opt body "source_name".
Proof.
  intros env body table rows Hin. unfold ingest_content in Hin.
  rewrite try_catch_calls in Hin.
  destruct (nullish_or_defined body) as [Hnull|Hdef].
  { rewrite Hnull in Hin. contradiction. }
  rewrite !Hdef, !bind_lift_returns in Hin.
  destruct (_ || _); [contradiction|].
  destruct (chunkText _ _) as [chunks| |] eqn:Hchunks; try contradiction.
  rewrite bind_lift_returns in Hin.
  destruct (length chunks =? 0)%nat; [contradiction|].
  rewrite bind_calls, embedText_calls in Hin.
  destruct (snd (embedText env _)) as [embeddings| |] eqn:Hemb;
    try (destruct Hin as [[=]|[]]).
  rewrite bind_calls in Hin. unfold await at 1 in Hin. cbn [fst app] in Hin.
  destruct Hin as [[=]|[[= <- <-]|Hin]].
  2:{ exfalso. unfold await in Hin. cbn [snd] in Hin.
      destruct (insert_select_id env _ _) as [result|]; [|contradiction].
      destruct (get result "data") as [data| |]; try contradiction.
      rewrite bind_lift_returns in Hin.
      destruct (get result "error") as [error| |]; try contradiction.
      rewrite bind_lift_returns in Hin.
      destruct (truthy error); [contradiction|].
      destruct (map_get data "id"); contradiction. }
  exists chunks, embeddings. eexists.
  split; [reflexivity|]. split; [exact Hemb|].
  split; [reflexivity|]. split; [reflexivity|].
  split; [apply length_mapi_from|].
  intros i c Hi. rewrite nth_error_mapi_from, Hi. cbn [option_map].
  eexists. split; [reflexivity|].
  unfold ingest_row. rewrite Z.add_0_l, Nat2Z.id. repeat split; reflexivity.
Qed.

Lemma ingest_content_rows_aligned_witness :
  exists chunks embeddings rs,
    chunkText (lit " one  two ") (lit "default") = Returns chunks
    /\ snd (embedText sample_services (JArr (map JStr chunks)))
       = Returns embeddings
    /\ str "kb_chunks" = str "kb_chunks"
    /\ JArr [ingest_row (lit "algebra") (lit "resource") JUndefined
               JUndefined JUndefined [JArr [num 1; num 0]]
               (str "one two") 0]
       = JArr rs
    /\ length rs = length chunks
    /\ forall i chunk, nth_error chunks i = Some chunk ->
         exists row,
           nth_error rs i = Some row
           /\ get_opt row "chunk_index" = num (Z.of_nat i)
           /\ get_opt row "content" = JStr chunk
           /\ get_opt row "embedding" = nth i embeddings JUndefined
           /\ get_opt row "course" = lit "algebra"
           /\ get_opt row "type" = lit "resource"
           /\ get_opt row "subtopic" = JUndefined
           /\ get_opt row "assignment_type" = JUndefined
           /\ get_opt row "source_name" = JUndefined.
Proof.
  apply (ingest_content_rows_aligned sample_services
           (sample_ingest (lit " one  two ")) (str "kb_chunks")).
  right. left. reflexivity.
Defined.

Lemma get_returns (v : JsValue) (m : string) (x : JsValue) :
  get v m = Returns x -> forall m', get v m' = Returns (get_opt v m').
Proof.
  intros H m'. destruct v; try discriminate; unfold get_opt; simpl;
    try reflexivity; destruct (String.eqb m' "length"); reflexivity.
Qed.

(** X13: when the store answers the insertion without an error, the answer
    of /ingest_content is 200 with [chunks_stored] the number of chunks
    (whatever the store returned) and [ids] the [id] of every returned
    row, in order. *)
Theorem ingest_content_success :
  forall (env : Services) (body : JsValue) (chunks : list JsString)
         (embeddings : list JsValue) (result data : JsValue)
         (ids : list JsValue),
    truthy (get_opt body "raw_text") = true ->
    truthy (get_opt body "course") = true ->
    truthy (get_opt body "type") = true ->
    chunkText (get_opt body "raw_text")
      (with_default (get_opt body "chunk_profile") (lit "default"))
    = Returns chunks ->
    chunks <> [] ->
    snd (embedText env (JArr (map JStr chunks))) = Returns embeddings ->
    insert_select_id env (str "kb_chunks")
      (JArr (mapi_from 0
               (ingest_row (get_opt body "course") (get_opt body "type")
                  (get_opt body "subtopic") (get_opt body "assignment_type")
                  (get_opt body "source_name") embeddings)
               chunks))
    = Some result ->
    get result "data" = Returns data ->
    truthy (get_opt result "error") = false ->
    map_get data "id" = Returns ids ->
    snd (ingest_content env body)
    = Returns {| status := 200;
                 payload :=
                   JObj [prop "success" (JBool true);
                         prop "chunks_stored" (num (Z.of_nat (length chunks)));
                         prop "ids" (JArr ids)] |}.
Proof.
  intros env body chunks embeddings result data ids Hr Hc Ht Hchunks Hne
    Hemb Hins Hdata Herr Hids.
  unfold ingest_content.
  rewrite !(get_truthy body _ Hr), !bind_lift_returns.
  rewrite Hr, Hc, Ht. cbn [negb orb].
  rewrite Hchunks, bind_lift_returns.
  destruct (Nat.eqb_spec (length chunks) 0) as [E|_].
  { destruct chunks; [congruence | discriminate]. }
  rewrite embedText_pair, Hemb, bind_pair_returns. cbv zeta.
  unfold await. rewrite Hins, bind_pair_returns.
  rewrite Hdata, bind_lift_returns.
  rewrite (get_returns _ _ _ Hdata "error").
  rewrite bind_lift_returns, Herr, Hids, bind_lift_returns.
  rewrite length_mapi_from. reflexivity.
Qed.

Lemma ingest_content_success_witness :
  snd (ingest_content sample_services (sample_ingest (lit " one  two ")))
  = Returns {| status := 200;
               payload :=
                 JObj [prop "success" (JBool true);
                       prop "chunks_stored"
                         (num (Z.of_nat (length [str "one two"])));
                       prop "ids" (JArr [num 7])] |}.
Proof.
  apply (ingest_content_success sample_services
           (sample_ingest (lit " one  two ")) [str "one two"]
           [JArr [num 1; num 0]]
           (JObj [prop "data" (JArr [JObj [prop "id" (num 7)]]);
                  prop "error" JNull])
           (JArr [JObj [prop "id" (num 7)]]) [num 7]);
    try reflexivity.
  discriminate.
Defined.

(** X14: when the store answers the search without an error, the answer of
    /search_content is 200 with the store's [data] as [results], as it is,
    or the empty array when [data] is falsy. *)
Theorem search_content_success :
  forall (env : Services) (body : JsValue) (embeddings : list JsValue)
         (result data : JsValue),
    truthy (get_opt body "query") = true ->
    snd (embedText env (get_opt body "query")) = Returns embeddings ->
    rpc env (str "match_kb_chunks")
      (search_args (hd JUndefined embeddings)
         (get_opt body "course") (get_opt body "types")
         (get_opt body "subtopic") (get_opt body "assignment_type")
         (with_default (get_opt body "top_k") (num 8))
         (with_default (get_opt body "threshold") (JNum (7 # 10))))
    = Some result ->
    get result "data" = Returns data ->
    truthy (get_opt result "error") = false ->
    snd (search_content env body)
    = Returns {| status := 200;
                 payload :=
                   JObj [prop "success" (JBool true);
                         prop "results"
                           (if truthy data then data else JArr [])] |}.
Proof.
  intros env body embeddings result data Hq Hemb Hrpc Hdata Herr.
  unfold search_content.
  rewrite !(get_truthy body _ Hq), !bind_lift_returns.
  rewrite Hq. cbn [negb].
  rewrite embedText_pair, Hemb, bind_pair_returns. cbv zeta.
  unfold await. rewrite Hrpc, bind_pair_returns.
  rewrite Hdata, bind_lift_returns.
  rewrite (get_returns _ _ _ Hdata "error").
  rewrite bind_lift_returns, Herr. reflexivity.
Qed.

Lemma search_content_success_witness :
  snd (search_content sample_services (JObj sample_search))
  = Returns {| status := 200;
               payload :=
                 JObj [prop "success" (JBool true);
                       prop "results"
                         (if truthy (JArr []) then JArr [] else JArr [])] |}.
Proof.
  apply (search_content_success sample_services (JObj sample_search)
           [JArr [num 1; num 0]]
           (JObj [prop "data" (JArr []); prop "error" JNull]) (JArr []));
    reflexivity.
Defined.

(** X15: when the store answers the insertion without an error and with an
    array of rows, the answer of /log_completion_result is 200 with the
    [id] of the first row, or [undefined] when the array is empty or its
    first row is [null]. *)
Theorem log_completion_result_success :
  forall (env : Services) (body : JsValue) (embeddings : list JsValue)
         (result : JsValue) (stored : list JsValue),
    truthy (get_opt body "course") = true ->
    truthy (get_opt body "assignment_type") = true ->
    truthy (get_opt body "model_answer") = true ->
    truthy (get_opt body "outcome") = true ->
    snd (embedText env (get_opt body "model_answer")) = Returns embeddings ->
    insert_select_id env (str "kb_chunks")
      (completion_row
         (get_opt body "course")
         (completion_type (get_opt body "outcome"))
         (get_opt body "subtopic")
         (get_opt body "assignment_type")
         (get_opt body "original_prompt")
         (get_opt body "model_answer")
         (get_opt body "outcome")
         (get_opt body "score")
         (get_opt body "teacher_feedback")
         (hd JUndefined embeddings))
    = Some result ->
    get result "data" = Returns (JArr stored) ->
    truthy (get_opt result "error") = false ->
    snd (log_completion_result env body)
    = Returns {| status := 200;
                 payload :=
                   JObj [prop "success" (JBool true);
                         prop "id"
                           (match stored with
                            | [] => JUndefined
                            | first :: _ => get_opt first "id"
                            end)] |}.
Proof.
  intros env body embeddings result stored Hc Ha Hm Ho Hemb Hins Hdata Herr.
  unfold log_completion_result.
  rewrite !(get_truthy body _ Hc), !bind_lift_returns.
  rewrite Hc, Ha, Hm, Ho. cbn [negb orb].
  rewrite embedText_pair, Hemb, bind_pair_returns. cbv zeta.
  unfold await. rewrite Hins, bind_pair_returns.
  rewrite Hdata, bind_lift_returns.
  rewrite (get_returns _ _ _ Hdata "error").
  rewrite bind_lift_returns, Herr. cbn [get_first].
  rewrite bind_lift_returns. destruct stored; reflexivity.
Qed.

Lemma log_completion_result_success_witness :
  snd (log_completion_result sample_services
         (sample_completion (lit "success")))
  = Returns {| status := 200;
               payload :=
                 JObj [prop "success" (JBool true);
                       prop "id" (get_opt (JObj [prop "id" (num 7)]) "id")] |}.
Proof.
  apply (log_completion_result_success sample_services
           (sample_completion (lit "success")) [JArr [num 1; num 0]]
           (JObj [prop "data" (JArr [JObj [prop "id" (num 7)]]);
                  prop "error" JNull])
           [JObj [prop "id" (num 7)]]);
    reflexivity.
Defined.

(** X16: when the store answers with a truthy [error], /ingest_content and
    /log_completion_result answer 500 [Insert failed] and /search_content
    answers 500 [Search failed], whatever [data] is. *)
Theorem store_error_responses :
  (forall (env : Services) (body : JsValue) (chunks : list JsString)
          (embeddings : list JsValue) (result : JsValue),
     truthy (get_opt body "raw_text") = true ->
     truthy (get_opt body "course") = true ->
     truthy (get_opt body "type") = true ->
     chunkText (get_opt body "raw_text")
       (with_default (get_opt body "chunk_profile") (lit "default"))
     = Returns chunks ->
     chunks <> [] ->
     snd (embedText env (JArr (map JStr chunks))) = Returns embeddings ->
     insert_select_id env (str "kb_chunks")
       (JArr (mapi_from 0
                (ingest_row (get_opt body "course") (get_opt body "type")
                   (get_opt body "subtopic") (get_opt body "assignment_type")
                   (get_opt body "source_name") embeddings)
                chunks))
     = Some result ->
     truthy (get_opt result "error") = true ->
     snd (ingest_content env body)
     = Returns (error_response 500 "Insert failed"))
  /\ (forall (env : Services) (body : JsValue) (embeddings : list JsValue)
             (result : JsValue),
        truthy (get_opt body "query") = true ->
        snd (embedText env (get_opt body "query")) = Returns embeddings ->
        rpc env (str "match_kb_chunks")
          (search_args (hd JUndefined embeddings)
             (get_opt body "course") (get_opt body "types")
             (get_opt body "subtopic") (get_opt body "assignment_type")
             (with_default (get_opt body "top_k") (num 8))
             (with_default (get_opt body "threshold") (JNum (7 # 10))))
        = Some result ->
        truthy (get_opt result "error") = true ->
        snd (search_content env body)
        = Returns (error_response 500 "Search failed"))
  /\ (forall (env : Services) (body : JsValue) (embeddings : list JsValue)
             (result : JsValue),
        truthy (get_opt body "course") = true ->
        truthy (get_opt body "assignment_type") = true ->
        truthy (get_opt body "model_answer") = true ->
        truthy (get_opt body "outcome") = true ->
        snd (embedText env (get_opt body "model_answer"))
        = Returns embeddings ->
        insert_select_id env (str "kb_chunks")
          (completion_row
             (get_opt body "course")
             (completion_type (get_opt body "outcome"))
             (get_opt body "subtopic")
             (get_opt body "assignment_type")
             (get_opt body "original_prompt")
             (get_opt body "model_answer")
             (get_opt body "outcome")
             (get_opt body "score")
             (get_opt body "teacher_feedback")
             (hd JUndefined embeddings))
        = Some result ->
        truthy (get_opt result "error") = true ->
        snd (log_completion_result env body)
        = Returns (error_response 500 "Insert failed")).
Proof.
  split; [|split].
  - intros env body chunks embeddings result Hr Hc Ht Hchunks Hne Hemb Hins
      Herr.
    unfold ingest_content.
    rewrite !(get_truthy body _ Hr), !bind_lift_returns.
    rewrite Hr, Hc, Ht. cbn [negb orb].
    rewrite Hchunks, bind_lift_returns.
    destruct (Nat.eqb_spec (length chunks) 0) as [E|_].
    { destruct chunks; [congruence | discriminate]. }
    rewrite embedText_pair, Hemb, bind_pair_returns. cbv zeta.
    unfold await. rewrite Hins, bind_pair_returns.
    rewrite !(get_truthy result _ Herr), !bind_lift_returns, Herr.
    reflexivity.
  - intros env body embeddings result Hq Hemb Hrpc Herr.
    unfold search_content.
    rewrite !(get_truthy body _ Hq), !bind_lift_returns.
    rewrite Hq. cbn [negb].
    rewrite embedText_pair, Hemb, bind_pair_returns. cbv zeta.
    unfold await. rewrite Hrpc, bind_pair_returns.
    rewrite !(get_truthy result _ Herr), !bind_lift_returns, Herr.
    reflexivity.
  - intros env body embeddings result Hc Ha Hm Ho Hemb Hins Herr.
    unfold log_completion_result.
    rewrite !(get_truthy body _ Hc), !bind_lift_returns.
    rewrite Hc, Ha, Hm, Ho. cbn [negb orb].
    rewrite embedText_pair, Hemb, bind_pair_returns. cbv zeta.
    unfold await. rewrite Hins, bind_pair_returns.
    rewrite !(get_truthy result _ Herr), !bind_lift_returns, Herr.
    reflexivity.
Qed.

Lemma store_error_responses_witness :
  snd (ingest_content sample_failing_store (sample_ingest (lit " one  two ")))
  = Returns (error_response 500 "Insert failed")
  /\ snd (search_content sample_failing_store (JObj sample_search))
     = Returns (error_response 500 "Search failed")
  /\ snd (log_completion_result sample_failing_store
            (sample_completion (lit "success")))
     = Returns (error_response 500 "Insert failed").
Proof.
  destruct store_error_responses as (Hingest & Hsearch & Hlog).
  split; [|split].
  - apply (Hingest sample_failing_store (sample_ingest (lit " one  two "))
             [str "one two"] [JArr [num 1; num 0]]
             (JObj [prop "data" JNull;
                    prop "error" (JObj [prop "message" (lit "denied")])]));
      try reflexivity.
    discriminate.
  - apply (Hsearch sample_failing_store (JObj sample_search)
             [JArr [num 1; num 0]]
             (JObj [prop "data" JNull;
                    prop "error" (JObj [prop "message" (lit "denied")])]));
      reflexivity.
  - apply (Hlog sample_failing_store (sample_completion (lit "success"))
             [JArr [num 1; num 0]]
             (JObj [prop "data" JNull;
                    prop "error" (JObj [prop "message" (lit "denied")])]));
      reflexivity.
Defined.

(** X17: a request that lacks a required field (a falsy [raw_text],
    [course] or [type] for an ingestion; a falsy [query] for a search; a
    falsy [course], [assignment_type], [model_answer] or [outcome] for a
    completion) is answered 400 without any call to the outside. *)
Theorem missing_required_fields :
  forall (env : Services) (body : JsValue),
    body <> JUndefined -> body <> JNull ->
    (truthy (get_opt body "raw_text") && truthy (get_opt body "course")
     && truthy (get_opt body "type") = false ->
     ingest_content env body
     = ([], Returns (error_response 400
                       "Missing required fields: course, type, raw_text")))
    /\ (truthy (get_opt body "query") = false ->
        search_content env body
        = ([], Returns (error_response 400 "Missing query text")))
    /\ (truthy (get_opt body "course")
        && truthy (get_opt body "assignment_type")
        && truthy (get_opt body "model_answer")
        && truthy (get_opt body "outcome") = false ->
        log_completion_result env body
        = ([], Returns (error_response 400 "Missing required fields"))).
Proof.
  intros env body Hu Hn. split; [|split]; intros H.
  - unfold ingest_content.
    rewrite !(get_defined body _ Hu Hn), !bind_lift_returns.
    destruct (truthy (get_opt body "raw_text")),
      (truthy (get_opt body "course")), (truthy (get_opt body "type"));
      try discriminate H; reflexivity.
  - unfold search_content.
    rewrite !(get_defined body _ Hu Hn), !bind_lift_returns.
    rewrite H. reflexivity.
  - unfold log_completion_result.
    rewrite !(get_defined body _ Hu Hn), !bind_lift_returns.
    destruct (truthy (get_opt body "course")),
      (truthy (get_opt body "assignment_type")),
      (truthy (get_opt body "model_answer")),
      (truthy (get_opt body "outcome"));
      try discriminate H; reflexivity.
Qed.

Lemma missing_required_fields_witness :
  ingest_content sample_services (JObj [prop "course" (lit "algebra")])
  = ([], Returns (error_response 400
                    "Missing required fields: course, type, raw_text"))
  /\ search_content sample_services (JObj [prop "course" (lit "algebra")])
     = ([], Returns (error_response 400 "Missing query text"))
  /\ log_completion_result sample_services
       (JObj [prop "course" (lit "algebra")])
     = ([], Returns (error_response 400 "Missing required fields")).
Proof.
  destruct (missing_required_fields sample_services
              (JObj [prop "course" (lit "algebra")]))
    as (Hingest & Hsearch & Hlog); try discriminate.
  split; [|split]; [apply Hingest | apply Hsearch | apply Hlog]; reflexivity.
Defined.

(** X18: an ingestion whose [raw_text] is truthy but not a string (a
    number, [true], an array, an object) is answered 500 [Internal error]
    without any call to the outside: [split] is not a function of it. *)
Theorem ingest_content_raw_text_not_a_string :
  forall (env : Services) (body : JsValue),
    truthy (get_opt body "raw_text") = true ->
    truthy (get_opt body "course") = true ->
    truthy (get_opt body "type") = true ->
    (forall s, get_opt body "raw_text" <> JStr s) ->
    ingest_content env body
    = ([], Returns (error_response 500 "Internal error")).
Proof.
  intros env body Hr Hc Ht Hns. unfold ingest_content.
  rewrite !(get_truthy body _ Hr), !bind_lift_returns.
  rewrite Hr, Hc, Ht. cbn [negb orb].
  destruct (get_opt body "raw_text") as [| | | |s| |] eqn:E;
    try reflexivity.
  now elim (Hns s).
Qed.

Lemma ingest_content_raw_text_not_a_string_witness :
  ingest_content sample_services (sample_ingest (num 5))
  = ([], Returns (error_response 500 "Internal error")).
Proof.
  apply (ingest_content_raw_text_not_a_string sample_services
           (sample_ingest (num 5))); try reflexivity.
  intros s. discriminate.
Defined.

(** X19: /ingest_content answers 400 [No content produced] without any
    call exactly when [course] and [type] are there and [raw_text] is a
    string that is not empty and holds white space only. *)
Theorem ingest_content_no_content_iff :
  forall (env : Services) (body : JsValue),
    ingest_content env body
    = ([], Returns (error_response 400 "No content produced"))
    <-> (truthy (get_opt body "course") = true
         /\ truthy (get_opt body "type") = true
         /\ exists s,
              get_opt body "raw_text" = JStr s
              /\ s <> [] /\ forallb is_space s = true).
Proof.
  intros env body. split.
  - unfold ingest_content.
    destruct (nullish_or_defined body) as [Hnull|Hdef].
    { rewrite Hnull. discriminate. }
    rewrite !Hdef, !bind_lift_returns.
    destruct (truthy (get_opt body "raw_text")) eqn:Hr; [|discriminate].
    destruct (truthy (get_opt body "course")) eqn:Hc; [|discriminate].
    destruct (truthy (get_opt body "type")) eqn:Ht; [|discriminate].
    cbn [negb orb].
    destruct (chunkText _ _) as [chunks| |] eqn:Hchunks; try discriminate.
    rewrite bind_lift_returns.
    destruct chunks as [|chunk chunks].
    + intros _. split; [reflexivity|]. split; [reflexivity|].
      destruct (get_opt body "raw_text") as [| | | |s| |];
        try discriminate Hchunks.
      exists s. split; [reflexivity|]. split.
      * intros ->. discriminate Hr.
      * destruct (chunkText_cases s
                    (with_default (get_opt body "chunk_profile")
                       (lit "default")))
          as [[Hnil _] | [(_ & _ & E) | (_ & ws & E & Hws)]].
        -- rewrite words_of_spec_words in Hnil.
           apply (spec_words_nil _ _ Hnil).
        -- rewrite E in Hchunks. discriminate.
        -- rewrite E in Hchunks. destruct Hws; discriminate.
    + cbn [length Nat.eqb]. intros H. apply (f_equal fst) in H.
      rewrite try_catch_calls, bind_calls, embedText_calls in H.
      cbn [fst app] in H. discriminate H.
  - intros (Hc & Ht & s & Hs & Hne & Hblank).
    assert (truthy (get_opt body "raw_text") = true) as Hr.
    { rewrite Hs. destruct s; [congruence | reflexivity]. }
    unfold ingest_content.
    rewrite !(get_truthy body _ Hr), !bind_lift_returns.
    rewrite Hr, Hc, Ht. cbn [negb orb]. rewrite Hs.
    rewrite (chunkText_no_words s _ (words_of_blank s Hblank)).
    rewrite bind_lift_returns. reflexivity.
Qed.

(** X20: a request body that is not an object never reaches the outside:
    [undefined] and [null] are answered 500 [Internal error] by the three
    handlers, and an array, a string, a number or a boolean is answered 400
    as a request without its required fields. *)
Theorem non_object_bodies :
  forall (env : Services) (body : JsValue),
    match body with
    | JObj _ => True
    | JUndefined | JNull =>
        ingest_content env body
        = ([], Returns (error_response 500 "Internal error"))
        /\ search_content env body
           = ([], Returns (error_response 500 "Internal error"))
        /\ log_completion_result env body
           = ([], Returns (error_response 500 "Internal error"))
    | _ =>
        ingest_content env body
        = ([], Returns (error_response 400
                          "Missing required fields: course, type, raw_text"))
        /\ search_content env body
           = ([], Returns (error_response 400 "Missing query text"))
        /\ log_completion_result env body
           = ([], Returns (error_response 400 "Missing required fields"))
    end.
Proof.
  intros env body. destruct body; try exact I; repeat split; reflexivity.
Qed.

(** * The manifest and the handlers *)

(** X21: the manifest and the handlers agree on what is required: each
    handler answers 400 for missing fields, without any call, exactly when
    one of the names that the manifest lists as [required] for its tool has
    a falsy value in the request. *)
Theorem manifest_required_is_validated :
  forall (env : Services) (props : list (JsString * JsValue)),
    (ingest_content env (JObj props)
     = ([], Returns (error_response 400
                       "Missing required fields: course, type, raw_text"))
     <-> lacks_required (manifest_required "ingest_content") props = true)
    /\ (search_content env (JObj props)
        = ([], Returns (error_response 400 "Missing query text"))
        <-> lacks_required (manifest_required "search_content") props = true)
    /\ (log_completion_result env (JObj props)
        = ([], Returns (error_response 400 "Missing required fields"))
        <-> lacks_required (manifest_required "log_completion_result") props
            = true).
Proof.
  intros env props. split; [|split].
  - change (lacks_required (manifest_required "ingest_content") props)
      with (negb (truthy (lookup (str "course") props))
            || (negb (truthy (lookup (str "type") props))
                || (negb (truthy (lookup (str "raw_text") props)) || false))).
    unfold ingest_content. rewrite !get_object, !bind_lift_returns.
    destruct (truthy (lookup (str "raw_text") props)),
      (truthy (lookup (str "course") props)),
      (truthy (lookup (str "type") props)); cbn [negb orb];
      try (split; reflexivity).
    split; [|discriminate]. intros H. exfalso.
    destruct (chunkText _ _) as [chunks| |]; try discriminate H.
    rewrite bind_lift_returns in H.
    destruct chunks as [|chunk chunks]; [discriminate H|].
    cbn [length Nat.eqb] in H. apply (f_equal fst) in H.
    rewrite try_catch_calls, bind_calls, embedText_calls in H.
    cbn [fst app] in H. discriminate H.
  - change (lacks_required (manifest_required "search_content") props)
      with (negb (truthy (lookup (str "query") props)) || false).
    unfold search_content. rewrite !get_object, !bind_lift_returns.
    destruct (truthy (lookup (str "query") props)); cbn [negb orb];
      [|split; reflexivity].
    split; [|discriminate]. intros H. exfalso. apply (f_equal fst) in H.
    rewrite try_catch_calls, bind_calls, embedText_calls in H.
    cbn [fst app] in H. discriminate H.
  - change (lacks_required (manifest_required "log_completion_result") props)
      with (negb (truthy (lookup (str "course") props))
            || (negb (truthy (lookup (str "assignment_type") props))
                || (negb (truthy (lookup (str "model_answer") props))
                    || (negb (truthy (lookup (str "outcome") props))
                        || false)))).
    unfold log_completion_result. rewrite !get_object, !bind_lift_returns.
    destruct (truthy (lookup (str "course") props)),
      (truthy (lookup (str "assignment_type") props)),
      (truthy (lookup (str "model_answer") props)),
      (truthy (lookup (str "outcome") props)); cbn [negb orb];
      try (split; reflexivity).
    split; [|discriminate]. intros H. exfalso. apply (f_equal fst) in H.
    rewrite try_catch_calls, bind_calls, embedText_calls in H.
    cbn [fst app] in H. discriminate H.
Qed.

(** Membership in a list of names of the manifest. *)
Ltac declared := vm_compute; repeat (try (left; reflexivity); right).

(** X22: a handler reads no property of the request beyond those that the
    manifest declares for its tool: two requests that agree on the declared
    properties get the same calls and the same answer. *)
Theorem handlers_read_declared_properties_only :
  forall (env : Services) (props props' : list (JsString * JsValue)),
    ((forall k, In k (manifest_properties "ingest_content") ->
        lookup k props = lookup k props') ->
     ingest_content env (JObj props) = ingest_content env (JObj props'))
    /\ ((forall k, In k (manifest_properties "search_content") ->
           lookup k props = lookup k props') ->
        search_content env (JObj props) = search_content env (JObj props'))
    /\ ((forall k, In k (manifest_properties "log_completion_result") ->
           lookup k props = lookup k props') ->
        log_completion_result env (JObj props)
        = log_completion_result env (JObj props')).
Proof.
  intros env props props'. split; [|split]; intros H.
  - unfold ingest_content. rewrite !get_object.
    rewrite (H (str "course")), (H (str "type")), (H (str "subtopic")),
      (H (str "assignment_type")), (H (str "chunk_profile")),
      (H (str "raw_text")), (H (str "source_name")) by declared.
    reflexivity.
  - unfold search_content. rewrite !get_object.
    rewrite (H (str "course")), (H (str "query")), (H (str "types")),
      (H (str "subtopic")), (H (str "assignment_type")), (H (str "top_k")),
      (H (str "threshold")) by declared.
    reflexivity.
  - unfold log_completion_result. rewrite !get_object.
    rewrite (H (str "course")), (H (str "assignment_type")),
      (H (str "subtopic")), (H (str "original_prompt")),
      (H (str "model_answer")), (H (str "outcome")), (H (str "score")),
      (H (str "teacher_feedback")) by declared.
    reflexivity.
Qed.

Lemma handlers_read_declared_properties_only_witness :
  ingest_content sample_services (sample_ingest (lit " one  two "))
  = ingest_content sample_services
      (JObj [prop "course" (lit "algebra");
             prop "type" (lit "resource");
             prop "raw_text" (lit " one  two ");
             prop "note" (lit "ignored")]).
Proof.
  apply (proj1 (handlers_read_declared_properties_only sample_services
                  [prop "course" (lit "algebra");
                   prop "type" (lit "resource");
                   prop "raw_text" (lit " one  two ")]
                  [prop "course" (lit "algebra");
                   prop "type" (lit "resource");
                   prop "raw_text" (lit " one  two ");
                   prop "note" (lit "ignored")])).
  intros k Hk. vm_compute in Hk.
  repeat (destruct Hk as [<-|Hk]; [reflexivity|]). contradiction.
Defined.
